(** * House Price Predictor front end: the submit handler of [App.js]

    A shallow embedding of [frontend/src/App.js]: the component state kept
    in six [useState] cells, the asynchronous [handleSubmit] handler written
    as a transition system over network settlements, and the part of the
    rendered tree that is guarded by the state.

    Conventions of the model.
    - A finite JavaScript number is the rational it denotes; [NaN] and the
      two infinities are separate values.  The sign of zero is left out.
      [parseInt] rounds the integer it reads to the nearest double.
    - A string is the sequence of the bytes of its UTF-8 text.
    - State setters take effect in the order in which the handler calls them.
    - Every effect of the handler is appended to a log, so that the order of
      setter calls and network requests can be stated. *)

From Stdlib Require Import ZArith QArith String Ascii DecimalString DecimalPos.
From stdpp Require Import base option list strings gmap.

Local Open Scope string_scope.
Local Open Scope Z_scope.
Local Open Scope list_scope.

(** ** JavaScript values and the operations the component uses on them *)

Module JS.

(** Values that can flow through the handler: whatever JSON the service
    answers with, plus [undefined], [NaN] and the infinities. *)
#[warnings="-register-all"] Inductive JsVal : Type :=
| VUndefined
| VNull
| VBool (b : bool)
| VNum (q : Q)
| VNaN
| VInfinity (negative : bool)
| VStr (s : string)
| VArr (items : list JsVal)
| VObj (fields : gmap string JsVal).

(** [ToBoolean]: the falsy values are [undefined], [null], [false], zero,
    [NaN] and the empty string. *)
Definition truthy (v : JsVal) : bool :=
  match v with
  | VUndefined | VNull | VNaN => false
  | VBool b => b
  | VNum q => negb (Qeq_bool q 0)
  | VStr s => negb (String.eqb s "")
  | VInfinity _ | VArr _ | VObj _ => true
  end.

(** Property read [v.k] for a key [k] that no prototype defines, as
    [predicted_price] is.  [None] stands for the [TypeError] raised on
    [undefined] and [null]; a primitive, an array or an object without
    the key reads as [undefined]. *)
Definition get_prop (v : JsVal) (k : string) : option JsVal :=
  match v with
  | VUndefined | VNull => None
  | VObj fields => Some (default VUndefined (fields !! k))
  | VBool _ | VNum _ | VNaN | VInfinity _ | VStr _ | VArr _ => Some VUndefined
  end.

(** The text a template literal produces for an integer number below
    [10 ^ 21] in magnitude, where JavaScript writes all the digits. *)
Definition Number_toString (n : Z) : string :=
  NilZero.string_of_int (Z.to_int n).

(** *** [parseInt] with the radix left out *)

Definition is_white_space (a : ascii) : bool :=
  match a with
  | " "%char | "009"%char | "010"%char | "011"%char | "012"%char
  | "013"%char => true
  | _ => false
  end.

(** Leading white space and line terminators are skipped: the six ASCII
    ones, and U+00A0, U+1680, U+2000 to U+200A, U+2028, U+2029, U+202F,
    U+205F, U+3000 and U+FEFF, recognised by the bytes of their UTF-8
    text. *)
Definition general_punctuation_space (c : ascii) : bool :=
  let n := nat_of_ascii c in
  (((128 <=? n) && (n <=? 138)) || (n =? 168) || (n =? 169) || (n =? 175))%nat.

Fixpoint trim_start (s : string) : string :=
  match s with
  | String a rest =>
      if is_white_space a then trim_start rest
      else
        match s with
        | String "194" (String "160" r) => trim_start r
        | String "225" (String "154" (String "128" r)) => trim_start r
        | String "226" (String "128" (String c r)) =>
            if general_punctuation_space c then trim_start r else s
        | String "226" (String "129" (String "159" r)) => trim_start r
        | String "227" (String "128" (String "128" r)) => trim_start r
        | String "239" (String "187" (String "191" r)) => trim_start r
        | _ => s
        end
  | EmptyString => s
  end.

(** Longest prefix of decimal digits, as a [Decimal.uint]. *)
Fixpoint decimal_prefix (s : string) : Decimal.uint :=
  match s with
  | String a rest =>
      match DecimalString.uint_of_char a (Some (decimal_prefix rest)) with
      | Some d => d
      | None => Decimal.Nil
      end
  | EmptyString => Decimal.Nil
  end.

Definition hex_digit (a : ascii) : option (Hexadecimal.uint -> Hexadecimal.uint) :=
  match a with
  | "0" => Some Hexadecimal.D0 | "1" => Some Hexadecimal.D1
  | "2" => Some Hexadecimal.D2 | "3" => Some Hexadecimal.D3
  | "4" => Some Hexadecimal.D4 | "5" => Some Hexadecimal.D5
  | "6" => Some Hexadecimal.D6 | "7" => Some Hexadecimal.D7
  | "8" => Some Hexadecimal.D8 | "9" => Some Hexadecimal.D9
  | "a" | "A" => Some Hexadecimal.Da | "b" | "B" => Some Hexadecimal.Db
  | "c" | "C" => Some Hexadecimal.Dc | "d" | "D" => Some Hexadecimal.Dd
  | "e" | "E" => Some Hexadecimal.De | "f" | "F" => Some Hexadecimal.Df
  | _ => None
  end%char.

Fixpoint hex_prefix (s : string) : Hexadecimal.uint :=
  match s with
  | String a rest =>
      match hex_digit a with
      | Some d => d (hex_prefix rest)
      | None => Hexadecimal.Nil
      end
  | EmptyString => Hexadecimal.Nil
  end.

(** Sign, then an optional [0x]/[0X] that selects radix 16. *)
Definition strip_sign (s : string) : bool * string :=
  match s with
  | String "-" rest => (true, rest)
  | String "+" rest => (false, rest)
  | _ => (false, s)
  end.

Definition strip_radix (s : string) : bool * string :=
  match s with
  | String "0" (String "x" rest) | String "0" (String "X" rest) => (true, rest)
  | _ => (false, s)
  end.

Definition magnitude (hex : bool) (s : string) : option Z :=
  if hex then
    match hex_prefix s with
    | Hexadecimal.Nil => None
    | d => Some (Z.of_hex_uint d)
    end
  else
    match decimal_prefix s with
    | Decimal.Nil => None
    | d => Some (Z.of_uint d)
    end.

(** Nearest integer to [n / d], ties to the even one ([0 <= n], [0 < d]). *)
Definition round_half_even (n d : Z) : Z :=
  let q := n / d in
  let r := n mod d in
  if 2 * r <? d then q
  else if d <? 2 * r then q + 1
  else if Z.even q then q else q + 1.

(** The Number value of a mathematical integer: the integer itself below
    [2 ^ 53]; beyond, the nearest number with 53 significant bits, ties
    to even, and an infinity from [2 ^ 1024] on.  (Past twenty digits
    ECMAScript lets [parseInt] round a little less exactly.) *)
Definition Number_of_integer (n : Z) : JsVal :=
  let a := Z.abs n in
  if a <? 2 ^ 53 then VNum (inject_Z n)
  else
    let e := Z.log2 a - 52 in
    let v := round_half_even a (2 ^ e) * 2 ^ e in
    if v <? 2 ^ 1024 then VNum (inject_Z (Z.sgn n * v))
    else VInfinity (n <? 0).

Definition parseInt (input : string) : JsVal :=
  let '(negative, s1) := strip_sign (trim_start input) in
  let '(hex, s2) := strip_radix s1 in
  match magnitude hex s2 with
  | None => VNaN
  | Some n => Number_of_integer (if negative then - n else n)
  end.

End JS.

Import JS.

(** ** The component state and the chart structure *)

(** One point of the second dataset: [{x: ..., y: ...}]. *)
Record Point : Type := { x : JsVal; y : JsVal }.

(** First dataset of [newChartData], the reference curve. *)
Record LineDataset : Type := {
  line_label : string;
  line_data : list JsVal;
  line_borderColor : string;
  line_backgroundColor : string;
  tension : Q
}.

(** Second dataset of [newChartData], the user's own point. *)
Record PointDataset : Type := {
  point_label : string;
  point_data : list Point;
  point_borderColor : string;
  point_backgroundColor : string;
  pointRadius : Z;
  pointHoverRadius : Z;
  showLine : bool
}.

Record ChartData : Type := {
  labels : list Z;
  datasets : LineDataset * PointDataset
}.

(** The six [useState] cells of [App].  [chartData] is [null] or an object. *)
Record AppState : Type := {
  squareFootage : string;
  bedrooms : string;
  predictedPrice : JsVal;
  error : string;
  chartData : option ChartData;
  loading : bool
}.

(** State of the component when it is mounted. *)
Definition initial : AppState :=
  {| squareFootage := ""; bedrooms := ""; predictedPrice := VNull;
     error := ""; chartData := None; loading := false |}.

(** ** Effects of the handler *)

Inductive Effect : Type :=
| PreventDefault
| SetError (msg : string)
| SetPredictedPrice (v : JsVal)
| SetChartData (c : ChartData)
| SetLoading (b : bool)
| Get (url : string)
| ConsoleError.

Definition apply_effect (e : Effect) (s : AppState) : AppState :=
  match e with
  | SetError msg =>
      {| squareFootage := squareFootage s; bedrooms := bedrooms s;
         predictedPrice := predictedPrice s; error := msg;
         chartData := chartData s; loading := loading s |}
  | SetPredictedPrice v =>
      {| squareFootage := squareFootage s; bedrooms := bedrooms s;
         predictedPrice := v; error := error s;
         chartData := chartData s; loading := loading s |}
  | SetChartData c =>
      {| squareFootage := squareFootage s; bedrooms := bedrooms s;
         predictedPrice := predictedPrice s; error := error s;
         chartData := Some c; loading := loading s |}
  | SetLoading b =>
      {| squareFootage := squareFootage s; bedrooms := bedrooms s;
         predictedPrice := predictedPrice s; error := error s;
         chartData := chartData s; loading := b |}
  | PreventDefault | Get _ | ConsoleError => s
  end.

(** ** [handleSubmit] as a transition system

    The handler runs to its first [await], then is resumed by the
    settlement of the promise it waits for.  Requests are numbered in the
    order in which [axios.get] is called: 0 is the primary request, 1 to 5
    are the requests of the reference sweep. *)

(** What a request settles with: rejection, or a response carrying [data]. *)
Inductive Reply : Type :=
| Rejected
| Resolved (data : JsVal).

(** [response.data.predicted_price]; [None] when the promise is rejected or
    the property read throws. *)
Definition predicted_price (r : Reply) : option JsVal :=
  match r with
  | Rejected => None
  | Resolved data => get_prop data "predicted_price"
  end.

Inductive Event : Type :=
| Settle (request : nat) (r : Reply).

(** Where the handler is suspended.  [AwaitAll] keeps the price of the
    primary response and one slot per promise given to [Promise.all]. *)
Inductive Phase : Type :=
| AwaitPrimary
| AwaitAll (response_price : JsVal) (slots : list (option JsVal))
| Finished.

(** A running call: the values of [squareFootage] and [bedrooms] the
    closure was created with, the component state, and the effects so far. *)
Record Config : Type := {
  phase : Phase;
  closure_squareFootage : string;
  closure_bedrooms : string;
  app : AppState;
  log : list Effect
}.

Definition emit (e : Effect) (c : Config) : Config :=
  {| phase := phase c;
     closure_squareFootage := closure_squareFootage c;
     closure_bedrooms := closure_bedrooms c;
     app := apply_effect e (app c);
     log := log c ++ [e] |}.

Definition perform (es : list Effect) (c : Config) : Config :=
  foldl (fun c e => emit e c) c es.

Definition suspend (p : Phase) (c : Config) : Config :=
  {| phase := p;
     closure_squareFootage := closure_squareFootage c;
     closure_bedrooms := closure_bedrooms c;
     app := app c;
     log := log c |}.

Definition predict_url (sf bd : string) : string :=
  ("http://localhost:8000/predict/" ++ sf ++ "/" ++ bd)%string.

Definition squareFootages : list Z := [1000; 1500; 2000; 2500; 3000].

Definition error_message : string := "Error predicting price. Please try again.".

Definition newChartData (sf : string) (response_price : JsVal)
    (predictions : list JsVal) : ChartData :=
  {| labels := squareFootages;
     datasets :=
       ({| line_label := "Predicted Prices";
           line_data := predictions;
           line_borderColor := "rgb(75, 192, 192)";
           line_backgroundColor := "rgba(75, 192, 192, 0.5)";
           tension := 1 # 10 |},
        {| point_label := "Your Prediction";
           point_data := [ {| x := parseInt sf; y := response_price |} ];
           point_borderColor := "rgb(255, 99, 132)";
           point_backgroundColor := "rgba(255, 99, 132, 0.5)";
           pointRadius := 8;
           pointHoverRadius := 12;
           showLine := false |}) |}.

(** Lines 63-71: the part of the handler that runs inside the submit event,
    up to the first [await]. *)
Definition handleSubmit (s : AppState) : Config :=
  let sf := squareFootage s in
  let bd := bedrooms s in
  perform
    [PreventDefault; SetError ""; SetPredictedPrice VNull; SetLoading true;
     Get (predict_url sf bd)]
    {| phase := AwaitPrimary; closure_squareFootage := sf;
       closure_bedrooms := bd; app := s; log := [] |}.

(** Lines 106-111: the [catch] block followed by [finally]. *)
Definition catch_finally (c : Config) : Config :=
  suspend Finished
    (perform [SetError error_message; ConsoleError; SetLoading false] c).

(** Lines 72-81: the primary response has arrived; store its price and start
    the five requests of the sweep. *)
Definition resume_primary (r : Reply) (c : Config) : Config :=
  match predicted_price r with
  | None => catch_finally c
  | Some price =>
      let bd := closure_bedrooms c in
      suspend (AwaitAll price ((fun _ => None) <$> squareFootages))
        (perform
           (SetPredictedPrice price ::
            ((fun sf => Get (predict_url (Number_toString sf) bd)) <$> squareFootages))
           c)
  end.

(** Lines 76-105: promise [k] of the array given to [Promise.all] settles.
    A rejection rejects the join at once; the join is fulfilled when the
    last slot is filled, with the values in the order of the array. *)
Definition resume_all (k : nat) (r : Reply) (response_price : JsVal)
    (slots : list (option JsVal)) (c : Config) : option Config :=
  match slots !! k with
  | Some None =>
      match predicted_price r with
      | None => Some (catch_finally c)
      | Some v =>
          let slots' := <[k := Some v]> slots in
          match mapM id slots' with
          | Some predictions =>
              Some (suspend Finished
                      (perform
                         [SetChartData
                            (newChartData (closure_squareFootage c)
                               response_price predictions);
                          SetLoading false]
                         c))
          | None => Some (suspend (AwaitAll response_price slots') c)
          end
      end
  | _ => None
  end.

(** One settlement.  [None] when the request is not outstanding.  After
    the handler has returned, later settlements have no one to observe
    them. *)
Definition step (c : Config) (e : Event) : option Config :=
  match phase c, e with
  | AwaitPrimary, Settle O r => Some (resume_primary r c)
  | AwaitPrimary, Settle (S _) _ => None
  | AwaitAll _ _, Settle O _ => None
  | AwaitAll response_price slots, Settle (S k) r =>
      resume_all k r response_price slots c
  | Finished, _ => Some c
  end.

Fixpoint run (c : Config) (es : list Event) : option Config :=
  match es with
  | [] => Some c
  | e :: es' =>
      match step c e with
      | Some c' => run c' es'
      | None => None
      end
  end.

(** The settlements of the sweep in completion order [order], request [i]
    settling with [replies i]. *)
Definition settlements (replies : nat -> Reply) (order : list nat) : list Event :=
  (fun i => Settle i (replies i)) <$> order.

(** A whole submission: the primary request settles with [primary], then
    the sweep settles in the order [order]. *)
Definition submission (s : AppState) (primary : Reply) (replies : nat -> Reply)
    (order : list nat) : option Config :=
  run (handleSubmit s) (Settle 0 primary :: settlements replies order).

(** The URLs requested so far, in the order of the calls. *)
Definition requests (l : list Effect) : list string :=
  omap (fun e => match e with Get url => Some url | _ => None end) l.

(** ** What [App] renders from its state *)

(** Value of the JSX expression [v && <E/>]: the element when [v] is
    truthy, otherwise [v] itself. *)
Inductive Child (E : Type) : Type :=
| Skipped (v : JsVal)
| Shown (e : E).
Arguments Skipped {E} v.
Arguments Shown {E} e.

Definition guarded {E : Type} (v : JsVal) (e : E) : Child E :=
  if truthy v then Shown e else Skipped v.

Inductive ButtonContent : Type :=
| CircularProgress
| PredictPriceText.

(** Whether [v.toLocaleString()] can be called on a value that is neither
    [undefined] nor [null].  A primitive takes the method of its
    prototype.  An object parsed from JSON holds no function: an own key
    [toLocaleString] makes the call a [TypeError], and so does an own key
    [toString], which [Object.prototype.toLocaleString] calls.  An array
    calls the method on each of its elements other than [null]. *)
Fixpoint toLocaleString_callable (v : JsVal) : bool :=
  match v with
  | VUndefined | VNull => false
  | VBool _ | VNum _ | VNaN | VInfinity _ | VStr _ => true
  | VArr items =>
      forallb (fun item => match item with
                           | VUndefined | VNull => true
                           | _ => toLocaleString_callable item
                           end) items
  | VObj fields =>
      match fields !! "toLocaleString", fields !! "toString" with
      | None, None => true
      | _, _ => false
      end
  end.

(** What line 169 evaluates to: the locale text of the price, kept here as
    the price itself, or the [TypeError] it throws. *)
Inductive Heading : Type :=
| PriceText (price : JsVal)
| ThrowsTypeError.

Definition toLocaleString (v : JsVal) : Heading :=
  if toLocaleString_callable v then PriceText v else ThrowsTypeError.

(** The [Paper] of lines 167-206: the price heading and, inside it, the
    chart box. *)
Record PricePaper : Type := {
  heading : Heading;
  chart_box : Child ChartData
}.

Record View : Type := {
  squareFootage_field : string;
  bedrooms_field : string;
  button_disabled : bool;
  button_content : ButtonContent;
  error_text : Child string;
  price_paper : Child PricePaper
}.

Definition render (s : AppState) : View :=
  {| squareFootage_field := squareFootage s;
     bedrooms_field := bedrooms s;
     button_disabled := loading s;
     button_content := if loading s then CircularProgress else PredictPriceText;
     error_text := guarded (VStr (error s)) (error s);
     price_paper :=
       guarded (predictedPrice s)
         {| heading := toLocaleString (predictedPrice s);
            chart_box :=
              match chartData s with
              | Some c => Shown c
              | None => Skipped VNull
              end |} |}.

(** The component function: [render] records what each expression of the
    returned tree evaluates to; when the heading throws, the function
    throws and returns no tree ([None]). *)
Definition App (s : AppState) : option View :=
  match price_paper (render s) with
  | Shown paper =>
      match heading paper with
      | PriceText _ => Some (render s)
      | ThrowsTypeError => None
      end
  | Skipped _ => Some (render s)
  end.

Definition shown {E : Type} (c : Child E) : option E :=
  match c with
  | Shown e => Some e
  | Skipped _ => None
  end.

(** ** A deterministic prediction service

    A service answers a request from its URL alone.  [run_service] settles
    the requests named in [order], each with the answer of the service to
    the URL that was requested under that number. *)

Definition serve (service : string -> Reply) (c : Config) (i : nat) : option Event :=
  match requests (log c) !! i with
  | Some url => Some (Settle i (service url))
  | None => None
  end.

Fixpoint run_service (service : string -> Reply) (c : Config) (order : list nat)
    : option Config :=
  match order with
  | [] => Some c
  | i :: rest =>
      match serve service c i with
      | Some e =>
          match step c e with
          | Some c' => run_service service c' rest
          | None => None
          end
      | None => None
      end
  end.

(** *** Decimal literals as numbers

    [App.js] sends the raw text of the form fields in the path of the
    request; [decimal_value] is the number such a text denotes to whoever
    receives it. *)

Fixpoint split_at (sep : ascii) (s : string) : string * option string :=
  match s with
  | EmptyString => (EmptyString, None)
  | String a rest =>
      if Ascii.eqb a sep then (EmptyString, Some rest)
      else let '(before, after) := split_at sep rest in (String a before, after)
  end.

(** The number written as [digits] or [digits.digits]. *)
Definition unsigned_decimal_value (s : string) : option Q :=
  let '(int_part, frac_part) := split_at "." s in
  match NilEmpty.uint_of_string int_part with
  | Some Decimal.Nil | None => None
  | Some i =>
      match frac_part with
      | None => Some (inject_Z (Z.of_uint i))
      | Some f =>
          match NilEmpty.uint_of_string f with
          | Some Decimal.Nil | None => None
          | Some d =>
              Some (inject_Z (Z.of_uint i)
                    + (Z.of_uint d # Pos.pow 10 (Pos.of_nat (Decimal.nb_digits d))))%Q
          end
      end
  end.

(** The number written by an optional minus sign and a decimal literal. *)
Definition decimal_value (s : string) : option Q :=
  match s with
  | String "-" rest => Qopp <$> unsigned_decimal_value rest
  | _ => unsigned_decimal_value s
  end.

(** *** The collaborator of the example scenario

    The mock collaborator of the specification's example scenario, which
    stands in for the remote service: [price = 200 * sf + 10000 * bedrooms],
    the two numbers being read from the path [/predict/sf/bedrooms]. *)

Fixpoint strip_prefix (p s : string) : option string :=
  match p, s with
  | EmptyString, _ => Some s
  | String a p', String b s' => if Ascii.eqb a b then strip_prefix p' s' else None
  | String _ _, EmptyString => None
  end.

Definition path_arguments (url : string) : option (string * string) :=
  match strip_prefix "http://localhost:8000/predict/" url with
  | Some path =>
      match split_at "/" path with
      | (sf, Some bd) => Some (sf, bd)
      | (_, None) => None
      end
  | None => None
  end.

Definition mock_price (sf bd : Q) : Q := (200 * sf + 10000 * bd)%Q.

Definition mock_service (url : string) : Reply :=
  match path_arguments url with
  | Some (sf, bd) =>
      match decimal_value sf, decimal_value bd with
      | Some a, Some b =>
          Resolved (VObj {[ "predicted_price" := VNum (Qred (mock_price a b)) ]})
      | _, _ => Rejected
      end
  | None => Rejected
  end.

(** The state of the example scenario: the form holds "1200" and "3". *)
Definition scenario : AppState :=
  {| squareFootage := "1200"; bedrooms := "3"; predictedPrice := VNull;
     error := ""; chartData := None; loading := false |}.

(** The component state after the effects [l], starting from [s]. *)
Definition replay (s : AppState) (l : list Effect) : AppState :=
  foldl (fun s e => apply_effect e s) s l.

(** The configuration in which the sweep is awaited: the handler has stored
    the primary price [p] and called [axios.get] five times. *)
Definition sweep_started (s : AppState) (p : JsVal) : Config :=
  perform
    (SetPredictedPrice p ::
     ((fun sf => Get (predict_url (Number_toString sf) (bedrooms s))) <$> squareFootages))
    (handleSubmit s).

(** The configuration a fully successful submission ends in. *)
Definition succeeded (s : AppState) (p : JsVal) (predictions : list JsVal) : Config :=
  suspend Finished
    (perform
       [SetChartData (newChartData (squareFootage s) p predictions);
        SetLoading false]
       (sweep_started s p)).

(** The slots of the join when the promises numbered in [pending] are still
    outstanding and every other promise [k] was fulfilled with [values k]. *)
Definition slots_with (values : nat → JsVal) (pending : list nat) (n : nat)
    : list (option JsVal) :=
  (fun k => if bool_decide (k ∈ pending) then None else Some (values k)) <$> seq 0 n.

(** The configurations a call of the handler can be in. *)
Inductive Reachable (s : AppState) : Config → Prop :=
| reach_start :
    Reachable s (handleSubmit s)
| reach_sweep (p : JsVal) (slots : list (option JsVal)) :
    Reachable s (suspend (AwaitAll p slots) (sweep_started s p))
| reach_primary_failed :
    Reachable s (catch_finally (handleSubmit s))
| reach_sweep_failed (p : JsVal) :
    Reachable s (catch_finally (sweep_started s p))
| reach_succeeded (p : JsVal) (predictions : list JsVal) :
    Reachable s (succeeded s p predictions).

(** A response whose payload is [{ predicted_price: q }]. *)
Definition priced (q : Q) : Reply :=
  Resolved (VObj {[ "predicted_price" := VNum q ]}).

(** The reading of the failure state as a bare message: whenever a
    completed submission shows an error, no predicted price is stored. *)
Definition failure_carries_only_message : Prop :=
  ∀ (s : AppState) (evs : list Event) (c : Config),
    run (handleSubmit s) evs = Some c →
    phase c = Finished →
    error (app c) ≠ "" →
    predictedPrice (app c) = VNull.

(** A decimal literal with a fractional part: an optional minus sign, the
    digits [int_part], a point and the digits [frac_part]. *)
Definition fractional_literal (negative : bool) (int_part frac_part : Decimal.uint)
    : string :=
  ((if negative then "-" else "")
   ++ NilEmpty.string_of_uint int_part ++ "." ++ NilEmpty.string_of_uint frac_part)%string.

Definition signed (negative : bool) (n : Z) : Z :=
  if negative then - n else n.

(** The number a fractional literal denotes. *)
Definition fractional_value (negative : bool) (int_part frac_part : Decimal.uint) : Q :=
  let q := (inject_Z (Z.of_uint int_part)
            + (Z.of_uint frac_part
               # Pos.pow 10 (Pos.of_nat (Decimal.nb_digits frac_part))))%Q in
  if negative then (- q)%Q else q.

(** Rounding of a rational toward zero. *)
Definition Qtruncate (q : Q) : Z := Z.quot (Qnum q) (Z.pos (Qden q)).

(** *** The numbers a number field accepts

    The two fields are [type="number"]: the text they hand over is empty
    or a valid floating-point number, that is an optional minus sign,
    digits, or digits with a point and more digits, or a point and digits,
    and an optional exponent: [e] or [E], an optional sign and digits.
    [numeric_value] is the number such a text denotes. *)

Fixpoint split_exponent (s : string) : string * option string :=
  match s with
  | EmptyString => (EmptyString, None)
  | String a rest =>
      if (Ascii.eqb a "e" || Ascii.eqb a "E")%bool then (EmptyString, Some rest)
      else let '(before, after) := split_exponent rest in (String a before, after)
  end.

(** A string of one digit or more. *)
Definition digits (s : string) : option Decimal.uint :=
  match NilEmpty.uint_of_string s with
  | Some Decimal.Nil | None => None
  | Some d => Some d
  end.

Definition exponent_value (s : string) : option Z :=
  match s with
  | String "+" rest => Z.of_uint <$> digits rest
  | String "-" rest => (fun d => - Z.of_uint d) <$> digits rest
  | _ => Z.of_uint <$> digits s
  end.

Definition mantissa_value (s : string) : option Q :=
  match split_at "." s with
  | (int_part, None) => (fun i => inject_Z (Z.of_uint i)) <$> digits int_part
  | (int_part, Some frac_part) =>
      match NilEmpty.uint_of_string int_part, digits frac_part with
      | Some i, Some d => Some (fractional_value false i d)
      | _, _ => None
      end
  end.

(** [q] times ten to the power [z]. *)
Definition scale (q : Q) (z : Z) : Q :=
  if 0 <=? z then (q * inject_Z (10 ^ z))%Q else (q / inject_Z (10 ^ (- z)))%Q.

Definition unsigned_numeric_value (s : string) : option Q :=
  match split_exponent s with
  | (mantissa, None) => mantissa_value mantissa
  | (mantissa, Some exponent) =>
      match mantissa_value mantissa, exponent_value exponent with
      | Some q, Some z => Some (scale q z)
      | _, _ => None
      end
  end.

Definition numeric_value (s : string) : option Q :=
  match s with
  | String "-" rest => Qopp <$> unsigned_numeric_value rest
  | _ => unsigned_numeric_value s
  end.

(** The texts with a fractional part, built from their pieces: sign,
    digits before the point (possibly none), digits after it, and an
    optional exponent. *)
Inductive ExponentSign : Type := NoSign | PlusSign | MinusSign.

Record Exponent : Type := {
  capital_E : bool;
  exponent_sign : ExponentSign;
  exponent_digits : Decimal.uint
}.

Definition exponent_text (ex : option Exponent) : string :=
  match ex with
  | None => ""
  | Some e =>
      ((if capital_E e then "E" else "e")
       ++ match exponent_sign e with
          | NoSign => ""
          | PlusSign => "+"
          | MinusSign => "-"
          end
       ++ NilEmpty.string_of_uint (exponent_digits e))%string
  end.

Definition exponent_Z (e : Exponent) : Z :=
  match exponent_sign e with
  | MinusSign => - Z.of_uint (exponent_digits e)
  | NoSign | PlusSign => Z.of_uint (exponent_digits e)
  end.

Definition float_literal (negative : bool) (int_part frac_part : Decimal.uint)
    (ex : option Exponent) : string :=
  (fractional_literal negative int_part frac_part ++ exponent_text ex)%string.

Definition float_value (negative : bool) (int_part frac_part : Decimal.uint)
    (ex : option Exponent) : Q :=
  let m := match ex with
           | None => fractional_value false int_part frac_part
           | Some e => scale (fractional_value false int_part frac_part) (exponent_Z e)
           end in
  if negative then (- m)%Q else m.

(** The reading of the highlighted point as the submitted square footage:
    whenever the raw text denotes the number [q] and all six requests
    succeed, the point's abscissa is [q]. *)
Definition highlight_at_submitted_square_footage : Prop :=
  ∀ (s : AppState) (q : Q) (primary : Reply) (p : JsVal) (replies : nat → Reply)
    (order : list nat) (c : Config),
    numeric_value (squareFootage s) = Some q →
    predicted_price primary = Some p →
    (∀ i, i ∈ seq 1 5 → is_Some (predicted_price (replies i))) →
    order ≡ₚ seq 1 5 →
    submission s primary replies order = Some c →
    ∃ chart q',
      chartData (app c) = Some chart
      ∧ point_data (snd (datasets chart)) = [ {| x := VNum q'; y := p |} ]
      ∧ (q' == q)%Q.

(** A form holding a square footage with a fractional part. *)
Definition fractional_scenario : AppState :=
  {| squareFootage := "1200.5"; bedrooms := "3"; predictedPrice := VNull;
     error := ""; chartData := None; loading := false |}.

(** A form holding 1500 square feet written with an exponent, which the
    number field accepts as the whole number it is. *)
Definition exponent_scenario : AppState :=
  {| squareFootage := "1.5e3"; bedrooms := "3"; predictedPrice := VNull;
     error := ""; chartData := None; loading := false |}.

(** The reading of the highlighted point as a truncation: whenever the
    raw text denotes the number [sent] and all six requests succeed, the
    point's abscissa is [sent] rounded toward zero. *)
Definition highlight_is_truncation_of_square_footage : Prop :=
  ∀ (s : AppState) (sent : Q) (primary : Reply) (p : JsVal) (replies : nat → Reply)
    (order : list nat) (c : Config),
    numeric_value (squareFootage s) = Some sent →
    predicted_price primary = Some p →
    (∀ i, i ∈ seq 1 5 → is_Some (predicted_price (replies i))) →
    order ≡ₚ seq 1 5 →
    submission s primary replies order = Some c →
    ∃ chart,
      chartData (app c) = Some chart
      ∧ point_data (snd (datasets chart))
        = [ {| x := VNum (inject_Z (Qtruncate sent)); y := p |} ].

(** The reading of a zero price as a blank page: after a fully successful
    submission whose primary price is 0, the tree holds in the place of
    the price paper what it holds before any submission. *)
Definition zero_price_shown_as_before_submission : Prop :=
  ∀ (s : AppState) (primary : Reply) (replies : nat → Reply) (order : list nat)
    (c : Config),
    predicted_price primary = Some (VNum 0) →
    (∀ i, i ∈ seq 1 5 → is_Some (predicted_price (replies i))) →
    order ≡ₚ seq 1 5 →
    submission s primary replies order = Some c →
    price_paper (render (app c)) = price_paper (render initial).

(** The example scenario with the outcome the specification announces: a
    primary price of 280000 and the highlighted point (1200, 280000). *)
Definition scenario_yields_280000 : Prop :=
  ∃ (c : Config) (chart : ChartData),
    run_service mock_service (handleSubmit scenario) [0; 1; 2; 3; 4; 5]%nat = Some c
    ∧ predictedPrice (app c) = VNum 280000
    ∧ chartData (app c) = Some chart
    ∧ length (line_data (fst (datasets chart))) = 5%nat
    ∧ point_data (snd (datasets chart)) = [ {| x := VNum 1200; y := VNum 280000 |} ].

(** What the mock collaborator answers to the five requests of the sweep
    when the bedroom count is 3. *)
Definition scenario_predictions (i : nat) : JsVal :=
  match i with
  | 1 => VNum 230000
  | 2 => VNum 330000
  | 3 => VNum 430000
  | 4 => VNum 530000
  | 5 => VNum 630000
  | _ => VUndefined
  end%nat.

(** The answers a deterministic service gives to the requests of the
    sweep, by request number. *)
Definition sweep_replies (service : string → Reply) (s : AppState) (p : JsVal)
    (i : nat) : Reply :=
  service (default "" (requests (log (sweep_started s p)) !! i)).

(** [Number.MAX_SAFE_INTEGER], [2 ^ 53 - 1]: up to it every integer is a
    Number. *)
Definition MAX_SAFE_INTEGER : Z := 9007199254740991.

(** What may follow the digits read by [parseInt]: nothing, or a character
    that is neither a digit nor the [x] of a hexadecimal prefix. *)
Definition digits_stop (rest : string) : Prop :=
  decimal_prefix rest = Decimal.Nil
  ∧ strip_radix (String "0" rest) = (false, String "0" rest).

(** ** The rest of the component *)

(** Lines 132 and 143: the [onChange] handlers of the two text fields. *)
Definition setSquareFootage (value : string) (s : AppState) : AppState :=
  {| squareFootage := value; bedrooms := bedrooms s;
     predictedPrice := predictedPrice s; error := error s;
     chartData := chartData s; loading := loading s |}.

Definition setBedrooms (value : string) (s : AppState) : AppState :=
  {| squareFootage := squareFootage s; bedrooms := value;
     predictedPrice := predictedPrice s; error := error s;
     chartData := chartData s; loading := loading s |}.

(** What can happen while a call of the handler is suspended: the user
    types in a field, or a request settles. *)
Inductive UiEvent : Type :=
| ChangeSquareFootage (value : string)
| ChangeBedrooms (value : string)
| Network (e : Event).

(** A state update from outside the handler: the component state changes,
    the suspended call keeps its closure. *)
Definition edit (f : AppState → AppState) (c : Config) : Config :=
  {| phase := phase c;
     closure_squareFootage := closure_squareFootage c;
     closure_bedrooms := closure_bedrooms c;
     app := f (app c);
     log := log c |}.

Definition ui_step (c : Config) (u : UiEvent) : option Config :=
  match u with
  | ChangeSquareFootage value => Some (edit (setSquareFootage value) c)
  | ChangeBedrooms value => Some (edit (setBedrooms value) c)
  | Network e => step c e
  end.

Fixpoint ui_run (c : Config) (us : list UiEvent) : option Config :=
  match us with
  | [] => Some c
  | u :: us' =>
      match ui_step c u with
      | Some c' => ui_run c' us'
      | None => None
      end
  end.

(** The settlements among the events, and the effect of the typing among
    them on the component state. *)
Definition network_events (us : list UiEvent) : list Event :=
  omap (fun u => match u with Network e => Some e | _ => None end) us.

Definition typing (us : list UiEvent) (s : AppState) : AppState :=
  foldl (fun s u => match u with
                    | ChangeSquareFootage value => setSquareFootage value s
                    | ChangeBedrooms value => setBedrooms value s
                    | Network _ => s
                    end) s us.

(** *** The calls of the handler on one component

    [handleSubmit] is created anew at each render and closes over the
    state of that render; every call writes to the same six cells. *)

Record Call : Type := {
  call_phase : Phase;
  call_squareFootage : string;
  call_bedrooms : string
}.

Record Page : Type := {
  page_state : AppState;
  page_calls : list Call;
  page_log : list Effect
}.

Definition call_of (c : Config) : Call :=
  {| call_phase := phase c;
     call_squareFootage := closure_squareFootage c;
     call_bedrooms := closure_bedrooms c |}.

(** The configuration in which a suspended call is resumed. *)
Definition resume_call (call : Call) (p : Page) : Config :=
  {| phase := call_phase call;
     closure_squareFootage := call_squareFootage call;
     closure_bedrooms := call_bedrooms call;
     app := page_state p;
     log := page_log p |}.

Definition page_of (calls : list Call) (c : Config) : Page :=
  {| page_state := app c; page_calls := calls; page_log := log c |}.

(** [Submit] is the user asking for a submission, by the button or by
    the Enter key in a field.  The form has one submit button, which is
    [disabled={loading}] (line 153): while it is disabled neither way
    submits the form, and [handleSubmit] is not called.  The browser's own
    validation of the two fields can only withhold more submissions. *)
Inductive PageEvent : Type :=
| Submit
| TypeSquareFootage (value : string)
| TypeBedrooms (value : string)
| Settled (call : nat) (e : Event).

Definition page_step (p : Page) (ev : PageEvent) : option Page :=
  match ev with
  | Submit =>
      if button_disabled (render (page_state p)) then Some p
      else
        let c := handleSubmit (page_state p) in
        Some {| page_state := app c;
                page_calls := page_calls p ++ [call_of c];
                page_log := page_log p ++ log c |}
  | TypeSquareFootage value =>
      Some {| page_state := setSquareFootage value (page_state p);
              page_calls := page_calls p;
              page_log := page_log p |}
  | TypeBedrooms value =>
      Some {| page_state := setBedrooms value (page_state p);
              page_calls := page_calls p;
              page_log := page_log p |}
  | Settled j e =>
      match page_calls p !! j with
      | Some call =>
          match step (resume_call call p) e with
          | Some c' => Some (page_of (<[j := call_of c']> (page_calls p)) c')
          | None => None
          end
      | None => None
      end
  end.

Fixpoint page_run (p : Page) (evs : list PageEvent) : option Page :=
  match evs with
  | [] => Some p
  | ev :: evs' =>
      match page_step p ev with
      | Some p' => page_run p' evs'
      | None => None
      end
  end.

(** The component showing state [s] with no call in flight. *)
Definition page_at (s : AppState) : Page :=
  {| page_state := s; page_calls := []; page_log := [] |}.

(** Whether a call is still suspended on a request. *)
Definition call_pending (call : Call) : bool :=
  match call_phase call with
  | Finished => false
  | AwaitPrimary | AwaitAll _ _ => true
  end.

(** At most one call is in flight: a call that is still suspended is the
    last one made, and the loading flag is set exactly while the last call
    is suspended. *)
Definition single_flight (p : Page) : Prop :=
  (∀ (j : nat) (call : Call),
     page_calls p !! j = Some call → call_pending call = true →
     S j = length (page_calls p))
  ∧ loading (page_state p) = from_option call_pending false (last (page_calls p)).

(** *** The error boundary (lines 32-53) *)

Record BoundaryState : Type := { hasError : bool }.

(** The constructor's [this.state]. *)
Definition boundary_initial : BoundaryState := {| hasError := false |}.

Definition getDerivedStateFromError (error : JsVal) : BoundaryState :=
  {| hasError := true |}.

(** What [render] returns: the heading "Something went wrong." or the
    children untouched. *)
Inductive BoundaryView (C : Type) : Type :=
| SomethingWentWrong
| Children (children : C).
Arguments SomethingWentWrong {C}.
Arguments Children {C} children.

Definition boundary_render {C : Type} (st : BoundaryState) (children : C)
    : BoundaryView C :=
  if hasError st then SomethingWentWrong else Children children.

(** The errors thrown below the boundary, in order: each one replaces the
    state by what [getDerivedStateFromError] returns. *)
Definition boundary_after (errors : list JsVal) : BoundaryState :=
  foldl (fun _ error => getDerivedStateFromError error) boundary_initial errors.

(** The component after a successful submission of the example scenario
    whose sweep was answered with the prices 1 to 5. *)
Definition charted : AppState :=
  {| squareFootage := "1200"; bedrooms := "3"; predictedPrice := VNum 270000;
     error := "";
     chartData :=
       Some (newChartData "1200" (VNum 270000) [VNum 1; VNum 2; VNum 3; VNum 4; VNum 5]);
     loading := false |}.

(** * Properties *)

(** ** Sanity checks of the JavaScript operations *)

Example parseInt_1200 : parseInt "1200" = VNum 1200.
Proof. reflexivity. Qed.
Example parseInt_1200_5 : parseInt "1200.5" = VNum 1200.
Proof. reflexivity. Qed.
Example parseInt_neg : parseInt "  -12abc" = VNum (-12).
Proof. reflexivity. Qed.
Example parseInt_hex : parseInt "0x1F" = VNum 31.
Proof. reflexivity. Qed.
Example parseInt_empty : parseInt "" = VNaN.
Proof. reflexivity. Qed.
Example parseInt_dot5 : parseInt ".5" = VNaN.
Proof. reflexivity. Qed.
Example parseInt_1e3 : parseInt "1e3" = VNum 1.
Proof. reflexivity. Qed.
Example parseInt_beyond_safe : parseInt "9007199254740993" = VNum 9007199254740992.
Proof. reflexivity. Qed.
Example parseInt_ties_to_even : parseInt "9007199254740995" = VNum 9007199254740996.
Proof. reflexivity. Qed.
Example Number_of_integer_overflow : Number_of_integer (- 2 ^ 1024) = VInfinity true.
Proof. vm_compute. reflexivity. Qed.
Example parseInt_no_break_space : parseInt (String "194" (String "160" "12")) = VNum 12.
Proof. reflexivity. Qed.
Example toString_1000 : Number_toString 1000 = "1000".
Proof. reflexivity. Qed.

(** ** [parseInt] on decimal literals *)

Lemma append_cons (a : ascii) (s rest : string) :
  (String a s ++ rest)%string = String a (s ++ rest)%string.
Proof. reflexivity. Qed.

Lemma append_empty (rest : string) : ("" ++ rest)%string = rest.
Proof. reflexivity. Qed.

Lemma append_nil_r (s : string) : (s ++ "")%string = s.
Proof. induction s as [|a s IH]; [done|]. by rewrite append_cons, IH. Qed.

Ltac digits_cons :=
  cbn [NilEmpty.string_of_uint]; rewrite ?append_cons, ?append_empty.

Section ParseInt.
Implicit Types (d : Decimal.uint) (rest : string).

Lemma decimal_prefix_digits d rest :
  decimal_prefix rest = Decimal.Nil →
  decimal_prefix (NilEmpty.string_of_uint d ++ rest)%string = d.
Proof.
  intros Hrest. induction d; digits_cons; [done | cbn; by rewrite IHd ..].
Qed.

Lemma trim_start_digits d rest :
  d ≠ Decimal.Nil →
  trim_start (NilEmpty.string_of_uint d ++ rest)%string
  = (NilEmpty.string_of_uint d ++ rest)%string.
Proof. intros Hd. destruct d; [done | digits_cons; reflexivity ..]. Qed.

Lemma strip_sign_digits d rest :
  d ≠ Decimal.Nil →
  strip_sign (NilEmpty.string_of_uint d ++ rest)%string
  = (false, (NilEmpty.string_of_uint d ++ rest)%string).
Proof. intros Hd. destruct d; [done | digits_cons; reflexivity ..]. Qed.

Lemma strip_radix_digits d rest :
  d ≠ Decimal.Nil → digits_stop rest →
  strip_radix (NilEmpty.string_of_uint d ++ rest)%string
  = (false, (NilEmpty.string_of_uint d ++ rest)%string).
Proof.
  intros Hd [_ Hrest].
  destruct d as [|d'| | | | | | | | |]; [done | | digits_cons; reflexivity ..].
  destruct d'; digits_cons; [exact Hrest | reflexivity ..].
Qed.

Lemma magnitude_digits d rest :
  d ≠ Decimal.Nil → digits_stop rest →
  magnitude false (NilEmpty.string_of_uint d ++ rest)%string = Some (Z.of_uint d).
Proof.
  intros Hd [Hrest _]. unfold magnitude.
  rewrite decimal_prefix_digits by done. by destruct d.
Qed.

Lemma trim_start_minus (s : string) : trim_start (String "-" s) = String "-" s.
Proof. reflexivity. Qed.

Lemma parseInt_digits (negative : bool) d rest :
  d ≠ Decimal.Nil → digits_stop rest →
  parseInt ((if negative then "-" else "") ++ NilEmpty.string_of_uint d ++ rest)%string
  = Number_of_integer (signed negative (Z.of_uint d)).
Proof.
  intros Hd Hrest. unfold parseInt. destruct negative.
  - rewrite append_cons, append_empty, trim_start_minus.
    cbn [strip_sign].
    by rewrite strip_radix_digits, magnitude_digits.
  - rewrite append_empty.
    by rewrite trim_start_digits, strip_sign_digits, strip_radix_digits,
      magnitude_digits.
Qed.

(** Up to [Number.MAX_SAFE_INTEGER] the integer read is the number. *)
Lemma Number_of_integer_safe (n : Z) :
  Z.abs n ≤ MAX_SAFE_INTEGER → Number_of_integer n = VNum (inject_Z n).
Proof.
  intros Hn. unfold Number_of_integer, MAX_SAFE_INTEGER in *.
  change (2 ^ 53) with 9007199254740992.
  by rewrite (proj2 (Z.ltb_lt _ _)) by lia.
Qed.

(** [parseInt] reads back the text of every safe integer. *)
Lemma parseInt_Number_toString (n : Z) :
  Z.abs n ≤ MAX_SAFE_INTEGER →
  parseInt (Number_toString n) = VNum (inject_Z n).
Proof.
  intros Hsafe. rewrite <- (Number_of_integer_safe n Hsafe). clear Hsafe.
  assert (∀ p, NilZero.string_of_uint (Pos.to_uint p)
               = (NilEmpty.string_of_uint (Pos.to_uint p) ++ "")%string) as Hpos.
  { intros p. rewrite append_nil_r.
    pose proof (DecimalPos.Unsigned.to_uint_nonnil p).
    by destruct (Pos.to_uint p). }
  assert (∀ p, Z.of_uint (Pos.to_uint p) = Z.pos p) as Hval.
  { intros p. unfold Z.of_uint. by rewrite DecimalPos.Unsigned.of_to. }
  destruct n as [|p|p]; [reflexivity| |].
  - change (Number_toString (Z.pos p)) with (NilZero.string_of_uint (Pos.to_uint p)).
    rewrite Hpos, <- (Hval p).
    apply (parseInt_digits false);
      [apply DecimalPos.Unsigned.to_uint_nonnil | done].
  - change (Number_toString (Z.neg p))
      with ("-" ++ NilZero.string_of_uint (Pos.to_uint p))%string.
    rewrite Hpos.
    change (Z.neg p) with (signed true (Z.pos p)). rewrite <- (Hval p).
    apply (parseInt_digits true);
      [apply DecimalPos.Unsigned.to_uint_nonnil | done].
Qed.

End ParseInt.

(** ** The number sent and the number plotted *)

Section Fractional.
Implicit Types (d : Decimal.uint).

Lemma split_at_digits d (rest : string) :
  split_at "." (NilEmpty.string_of_uint d ++ String "." rest)%string
  = (NilEmpty.string_of_uint d, Some rest).
Proof.
  induction d; digits_cons; [done | cbn [split_at Ascii.eqb]; cbn; by rewrite IHd ..].
Qed.

Lemma unsigned_decimal_value_fractional (int_part frac_part : Decimal.uint) :
  int_part ≠ Decimal.Nil → frac_part ≠ Decimal.Nil →
  unsigned_decimal_value
    (NilEmpty.string_of_uint int_part ++ "." ++ NilEmpty.string_of_uint frac_part)%string
  = Some (fractional_value false int_part frac_part).
Proof.
  intros Hi Hf. unfold unsigned_decimal_value.
  rewrite append_cons, append_empty, split_at_digits, !NilEmpty.usu.
  by destruct int_part, frac_part.
Qed.

Lemma decimal_value_fractional (negative : bool) (int_part frac_part : Decimal.uint) :
  int_part ≠ Decimal.Nil → frac_part ≠ Decimal.Nil →
  decimal_value (fractional_literal negative int_part frac_part)
  = Some (fractional_value negative int_part frac_part).
Proof.
  intros Hi Hf. unfold fractional_literal. destruct negative.
  - rewrite append_cons, append_empty. cbn [decimal_value].
    by rewrite unsigned_decimal_value_fractional.
  - rewrite append_empty.
    rewrite <- unsigned_decimal_value_fractional by done.
    destruct int_part; [done | digits_cons; reflexivity ..].
Qed.

Lemma of_lu_bound d : (Unsigned.of_lu d < 10 ^ Unsigned.usize d)%N.
Proof.
  induction d; cbn [Unsigned.of_lu Unsigned.usize];
    rewrite ?N.pow_succ_r'; [done | lia ..].
Qed.

Lemma usize_nb_digits d : Unsigned.usize d = N.of_nat (Decimal.nb_digits d).
Proof.
  induction d; cbn [Unsigned.usize Decimal.nb_digits]; [done | lia ..].
Qed.

(** A string of [n] digits denotes a number below [10 ^ n]. *)
Lemma of_uint_bound d : 0 ≤ Z.of_uint d < 10 ^ Z.of_nat (Decimal.nb_digits d).
Proof.
  unfold Z.of_uint. rewrite Unsigned.of_uint_alt.
  pose proof (of_lu_bound (Decimal.rev d)) as Hb.
  rewrite usize_nb_digits, DecimalFacts.nb_digits_rev in Hb.
  split; [lia|].
  apply N2Z.inj_lt in Hb. rewrite N2Z.inj_pow in Hb.
  by rewrite nat_N_Z in Hb.
Qed.

Lemma frac_denominator d :
  d ≠ Decimal.Nil →
  Z.pos (Pos.pow 10 (Pos.of_nat (Decimal.nb_digits d)))
  = 10 ^ Z.of_nat (Decimal.nb_digits d).
Proof.
  intros Hd. rewrite Pos2Z.inj_pow. f_equal.
  destruct (Decimal.nb_digits d) as [|n] eqn:Hn.
  - by apply DecimalFacts.nb_digits_0 in Hn.
  - lia.
Qed.

(** The integer part of a fractional literal is the rounding toward zero
    of the number it denotes. *)
Lemma Qtruncate_fractional_value (negative : bool) (int_part frac_part : Decimal.uint) :
  frac_part ≠ Decimal.Nil →
  Qtruncate (fractional_value negative int_part frac_part)
  = signed negative (Z.of_uint int_part).
Proof.
  intros Hf.
  pose proof (of_uint_bound frac_part) as Hb.
  pose proof (of_uint_bound int_part) as Hi.
  pose proof (frac_denominator frac_part Hf) as Hden.
  set (D := Pos.pow 10 (Pos.of_nat (Decimal.nb_digits frac_part))) in *.
  assert (Z.quot (Z.of_uint int_part * Z.pos D + Z.of_uint frac_part) (Z.pos D)
          = Z.of_uint int_part) as Hq.
  { rewrite Z.quot_div_nonneg by lia.
    symmetry. apply (Z.div_unique_pos _ _ _ (Z.of_uint frac_part)); lia. }
  unfold Qtruncate, fractional_value, signed. fold D.
  destruct negative; cbn [Qnum Qden Qplus Qopp inject_Z].
  - rewrite Z.mul_1_r, Pos.mul_1_l, Z.quot_opp_l by lia. by rewrite Hq.
  - by rewrite Z.mul_1_r, Pos.mul_1_l.
Qed.

End Fractional.

(** ** Bookkeeping of configurations *)

Section Bookkeeping.
Implicit Types (c : Config) (e : Effect) (es : list Effect) (p : Phase).

Lemma perform_cons e es c : perform (e :: es) c = perform es (emit e c).
Proof. reflexivity. Qed.

Lemma log_perform es c : log (perform es c) = log c ++ es.
Proof.
  revert c. induction es as [|e es IH]; intros c.
  - cbn. by rewrite app_nil_r.
  - rewrite perform_cons, IH. cbn. by rewrite <- app_assoc.
Qed.

Lemma app_perform es c : app (perform es c) = replay (app c) es.
Proof. revert c. induction es as [|e es IH]; intros c; [done|]. by rewrite perform_cons, IH. Qed.

Lemma perform_suspend es p c : perform es (suspend p c) = suspend p (perform es c).
Proof. revert c. induction es as [|e es IH]; intros c; [done|]. by rewrite !perform_cons, <- IH. Qed.

Lemma suspend_suspend p q c : suspend p (suspend q c) = suspend p c.
Proof. reflexivity. Qed.

Lemma catch_finally_suspend p c : catch_finally (suspend p c) = catch_finally c.
Proof. unfold catch_finally. by rewrite perform_suspend, suspend_suspend. Qed.

Lemma requests_app l1 l2 : requests (l1 ++ l2) = requests l1 ++ requests l2.
Proof. unfold requests. apply omap_app. Qed.

Lemma run_Finished c evs : phase c = Finished → run c evs = Some c.
Proof.
  intros Hc. induction evs as [|ev evs IH]; [done|].
  cbn [run]. unfold step. by rewrite Hc.
Qed.

Lemma succeeded_suspend s v predictions p :
  suspend Finished
    (perform
       [SetChartData
          (newChartData (closure_squareFootage (suspend p (sweep_started s v)))
             v predictions);
        SetLoading false]
       (suspend p (sweep_started s v)))
  = succeeded s v predictions.
Proof. by rewrite perform_suspend, suspend_suspend. Qed.

Lemma step_AwaitPrimary c r :
  phase c = AwaitPrimary → step c (Settle 0 r) = Some (resume_primary r c).
Proof. intros Hc. unfold step. by rewrite Hc. Qed.

Lemma step_AwaitAll c v slots k r :
  phase c = AwaitAll v slots →
  step c (Settle (S k) r) = resume_all k r v slots c.
Proof. intros Hc. unfold step. by rewrite Hc. Qed.

Lemma step_Finished c ev : phase c = Finished → step c ev = Some c.
Proof. intros Hc. unfold step. by rewrite Hc. Qed.

Lemma resume_primary_fulfilled s r v :
  predicted_price r = Some v →
  resume_primary r (handleSubmit s)
  = suspend (AwaitAll v [None; None; None; None; None]) (sweep_started s v).
Proof. intros Hr. unfold resume_primary. by rewrite Hr. Qed.

Lemma resume_primary_failed r c :
  predicted_price r = None → resume_primary r c = catch_finally c.
Proof. intros Hr. unfold resume_primary. by rewrite Hr. Qed.

End Bookkeeping.

(** ** The join over the reference sweep *)

Lemma mapM_id_pending (slots : list (option JsVal)) (k : nat) :
  slots !! k = Some None → mapM id slots = None.
Proof.
  intros Hk. apply mapM_None_2, Exists_exists.
  exists None. split; [by eapply list_elem_of_lookup_2 | done].
Qed.

Lemma sweep_order (order : list nat) :
  order ≡ₚ seq 1 5 → ∃ ks, order = S <$> ks ∧ ks ≡ₚ seq 0 5.
Proof.
  intros Hp. exists (pred <$> order). split.
  - rewrite <- list_fmap_compose.
    rewrite <- (list_fmap_id order) at 1.
    apply list_fmap_ext. intros i k Hk.
    assert (k ∈ seq 1 5) as Hin.
    { rewrite <- Hp. by eapply list_elem_of_lookup_2. }
    apply elem_of_seq in Hin. cbn. lia.
  - by rewrite Hp.
Qed.

Section Sweep.
Variable replies : nat → Reply.
Variable response_price : JsVal.

(** A rejection anywhere in the sweep rejects the join, whatever the
    other promises do and in whatever order they settle. *)
Lemma sweep_rejected (ks : list nat) :
  ∀ (slots : list (option JsVal)) (c : Config),
    NoDup ks →
    (∀ k, k ∈ ks → slots !! k = Some None) →
    (∃ k, k ∈ ks ∧ predicted_price (replies (S k)) = None) →
    run (suspend (AwaitAll response_price slots) c) (settlements replies (S <$> ks))
    = Some (catch_finally c).
Proof.
  induction ks as [|k ks IH]; intros slots c Hnd Hpend (j & Hj & Hfail).
  { by apply elem_of_nil in Hj. }
  apply NoDup_cons in Hnd as [Hk Hnd].
  rewrite fmap_cons. unfold settlements. rewrite fmap_cons. cbn [run].
  rewrite (step_AwaitAll _ response_price slots) by done.
  unfold resume_all.
  rewrite (Hpend k) by apply list_elem_of_here.
  destruct (predicted_price (replies (S k))) as [v|] eqn:Hv.
  - assert (j ∈ ks) as Hj'.
    { apply elem_of_cons in Hj as [->|]; [congruence | done]. }
    assert (<[k:=Some v]> slots !! j = Some None) as Hslot.
    { rewrite list_lookup_insert_ne by (intros ->; done).
      apply Hpend. by apply list_elem_of_further. }
    rewrite (mapM_id_pending _ _ Hslot), suspend_suspend.
    apply IH; [done | | by exists j].
    intros i Hi. rewrite list_lookup_insert_ne by (intros ->; done).
    apply Hpend. by apply list_elem_of_further.
  - rewrite catch_finally_suspend. by apply run_Finished.
Qed.

Variable values : nat → JsVal.
Variable n : nat.
Hypothesis fulfilled : ∀ k, (k < n)%nat → predicted_price (replies (S k)) = Some (values k).

Lemma slots_with_lookup (pending : list nat) (k : nat) :
  (k < n)%nat →
  slots_with values pending n !! k
  = Some (if bool_decide (k ∈ pending) then None else Some (values k)).
Proof.
  intros Hk. unfold slots_with.
  by rewrite list_lookup_fmap, lookup_seq_lt.
Qed.

Lemma slots_with_fill (k : nat) (ks : list nat) :
  k ∉ ks →
  <[k:=Some (values k)]> (slots_with values (k :: ks) n) = slots_with values ks n.
Proof.
  intros Hk. apply list_eq. intros i.
  destruct (decide (i < n)%nat) as [Hi|Hi].
  - destruct (decide (k = i)) as [->|Hne].
    + rewrite list_lookup_insert_eq
        by (unfold slots_with; by rewrite length_fmap, length_seq).
      rewrite slots_with_lookup by done.
      by rewrite bool_decide_eq_false_2.
    + rewrite list_lookup_insert_ne, !slots_with_lookup by done.
      rewrite (bool_decide_ext (i ∈ k :: ks) (i ∈ ks)); [done|].
      rewrite elem_of_cons. split; [intros [->|]; done | by right].
  - rewrite !lookup_ge_None_2; [done | |].
    + unfold slots_with. rewrite length_fmap, length_seq. lia.
    + rewrite length_insert. unfold slots_with.
      rewrite length_fmap, length_seq. lia.
Qed.

Lemma slots_with_all_fulfilled :
  mapM id (slots_with values [] n) = Some (values <$> seq 0 n).
Proof.
  unfold slots_with.
  rewrite (list_fmap_ext _ (Some ∘ values) (seq 0 n)) by done.
  rewrite list_fmap_compose. by apply mapM_fmap_Some.
Qed.

(** When every promise of the sweep is fulfilled, the join is fulfilled
    after the last settlement, with the values in the order of the
    array, whatever the order of the settlements. *)
Lemma sweep_fulfilled (ks : list nat) :
  ∀ c : Config,
    NoDup ks → ks ≠ [] → (∀ k, k ∈ ks → (k < n)%nat) →
    run (suspend (AwaitAll response_price (slots_with values ks n)) c)
      (settlements replies (S <$> ks))
    = Some (suspend Finished
              (perform
                 [SetChartData
                    (newChartData (closure_squareFootage c) response_price
                       (values <$> seq 0 n));
                  SetLoading false]
                 c)).
Proof.
  induction ks as [|k ks IH]; intros c Hnd Hne Hlt; [done|].
  apply NoDup_cons in Hnd as [Hk Hnd].
  assert (k < n)%nat as Hkn by apply Hlt, list_elem_of_here.
  rewrite fmap_cons. unfold settlements. rewrite fmap_cons. cbn [run].
  rewrite (step_AwaitAll _ response_price (slots_with values (k :: ks) n)) by done.
  unfold resume_all.
  rewrite slots_with_lookup, bool_decide_eq_true_2 by (done || apply list_elem_of_here).
  rewrite (fulfilled k Hkn), slots_with_fill by done.
  destruct ks as [|k' ks].
  - by rewrite slots_with_all_fulfilled.
  - assert (k' < n)%nat as Hk'n.
    { apply Hlt. apply list_elem_of_further, list_elem_of_here. }
    rewrite (mapM_id_pending _ k'), suspend_suspend.
    + apply IH; [done | done |].
      intros i Hi. apply Hlt. by apply list_elem_of_further.
    + rewrite slots_with_lookup, bool_decide_eq_true_2 by (done || apply list_elem_of_here).
      done.
Qed.

End Sweep.

(** ** Whole submissions *)

Section Submission.
Variable s : AppState.
Variable primary : Reply.
Variable replies : nat → Reply.

Lemma primary_failed (evs : list Event) :
  predicted_price primary = None →
  run (handleSubmit s) (Settle 0 primary :: evs) = Some (catch_finally (handleSubmit s)).
Proof.
  intros Hp. cbn [run].
  rewrite step_AwaitPrimary, resume_primary_failed by done.
  by apply run_Finished.
Qed.

Lemma primary_fulfilled (p : JsVal) :
  predicted_price primary = Some p →
  step (handleSubmit s) (Settle 0 primary)
  = Some (suspend (AwaitAll p [None; None; None; None; None]) (sweep_started s p)).
Proof.
  intros Hp. by rewrite step_AwaitPrimary, (resume_primary_fulfilled _ _ p).
Qed.

Lemma slots_with_sweep (values : nat → JsVal) (ks : list nat) :
  ks ≡ₚ seq 0 5 → slots_with values ks 5 = [None; None; None; None; None].
Proof.
  intros Hks. unfold slots_with. cbn.
  rewrite !bool_decide_eq_true_2; [done | rewrite Hks; set_solver ..].
Qed.

Lemma submission_sweep_failed (p : JsVal) (order : list nat) :
  predicted_price primary = Some p →
  order ≡ₚ seq 1 5 →
  (∃ i, i ∈ seq 1 5 ∧ predicted_price (replies i) = None) →
  submission s primary replies order = Some (catch_finally (sweep_started s p)).
Proof.
  intros Hp (ks & -> & Hks)%sweep_order (i & Hi & Hfail).
  unfold submission. cbn [run]. rewrite (primary_fulfilled p Hp).
  apply sweep_rejected.
  - rewrite Hks. apply NoDup_seq.
  - intros k Hk. rewrite Hks in Hk. apply elem_of_seq in Hk.
    do 5 (destruct k as [|k]; [done|]). lia.
  - destruct i as [|k]; [apply elem_of_seq in Hi; lia|].
    exists k. split; [|done].
    rewrite Hks. apply elem_of_seq. apply elem_of_seq in Hi. lia.
Qed.

Lemma submission_succeeded (p : JsVal) (values : nat → JsVal) (order : list nat) :
  predicted_price primary = Some p →
  order ≡ₚ seq 1 5 →
  (∀ i, i ∈ seq 1 5 → predicted_price (replies i) = Some (values i)) →
  submission s primary replies order = Some (succeeded s p (values <$> seq 1 5)).
Proof.
  intros Hp (ks & -> & Hks)%sweep_order Hall.
  unfold submission. cbn [run]. rewrite (primary_fulfilled p Hp).
  rewrite <- (slots_with_sweep (values ∘ S) ks Hks).
  rewrite (sweep_fulfilled replies p (values ∘ S) 5).
  - reflexivity.
  - intros k Hk. apply Hall, elem_of_seq. lia.
  - rewrite Hks. apply NoDup_seq.
  - intros ->. by apply Permutation_nil_l in Hks.
  - intros k Hk. rewrite Hks in Hk. apply elem_of_seq in Hk. lia.
Qed.

(** Whatever the service answers, a submission whose six requests all
    settle runs the handler to its end. *)
Lemma submission_finishes (order : list nat) :
  order ≡ₚ seq 1 5 →
  ∃ c, submission s primary replies order = Some c ∧ phase c = Finished.
Proof.
  intros Horder.
  destruct (predicted_price primary) as [p|] eqn:Hp.
  - destruct (decide (Forall (fun i => is_Some (predicted_price (replies i))) (seq 1 5)))
      as [Hall|Hsome].
    + eexists. split; [|shelve].
      apply (submission_succeeded p
               (fun i => default VUndefined (predicted_price (replies i)))); [done..|].
      intros i Hi. rewrite Forall_forall in Hall.
      by destruct (Hall i Hi) as [v ->].
      Unshelve. reflexivity.
    + apply not_Forall_Exists, Exists_exists in Hsome as (i & Hi & Hnone); [|apply _].
      eexists. split.
      * apply (submission_sweep_failed p); [done..|].
        exists i. split; [done|]. by apply eq_None_not_Some.
      * reflexivity.
  - eexists. split; [by apply primary_failed | reflexivity].
Qed.

Lemma step_reachable (c c' : Config) (e : Event) :
  Reachable s c → step c e = Some c' → Reachable s c'.
Proof.
  intros Hc Hstep. destruct Hc, e as [i r].
  - destruct i as [|i]; [|done].
    rewrite step_AwaitPrimary in Hstep by done. injection Hstep as <-.
    destruct (predicted_price r) as [v|] eqn:Hr.
    + rewrite (resume_primary_fulfilled _ _ v Hr). apply reach_sweep.
    + rewrite (resume_primary_failed _ _ Hr). apply reach_primary_failed.
  - destruct i as [|k]; [done|].
    rewrite (step_AwaitAll _ p slots) in Hstep by done.
    unfold resume_all in Hstep.
    destruct (slots !! k) as [[|]|]; try done.
    destruct (predicted_price r) as [v|].
    + destruct (mapM id (<[k:=Some v]> slots)) as [predictions|].
      * rewrite succeeded_suspend in Hstep. injection Hstep as <-.
        apply reach_succeeded.
      * rewrite suspend_suspend in Hstep. injection Hstep as <-.
        apply reach_sweep.
    + injection Hstep as <-. rewrite catch_finally_suspend.
      apply reach_sweep_failed.
  - rewrite step_Finished in Hstep by done.
    injection Hstep as <-. apply reach_primary_failed.
  - rewrite step_Finished in Hstep by done.
    injection Hstep as <-. apply reach_sweep_failed.
  - rewrite step_Finished in Hstep by done.
    injection Hstep as <-. apply reach_succeeded.
Qed.

Lemma run_reachable (evs : list Event) :
  ∀ c c', Reachable s c → run c evs = Some c' → Reachable s c'.
Proof.
  induction evs as [|e evs IH]; intros c c' Hc Hrun; cbn in Hrun.
  - by injection Hrun as <-.
  - destruct (step c e) as [c1|] eqn:Hstep; [|done].
    eapply IH; [|done]. by eapply step_reachable.
Qed.

Lemma handleSubmit_reachable (evs : list Event) (c : Config) :
  run (handleSubmit s) evs = Some c → Reachable s c.
Proof. apply run_reachable. apply reach_start. Qed.

End Submission.

(** ** Failure handling *)

(** C1.  When the primary request succeeds and at least one of the five
    requests of the sweep fails, the handler ends in the failure state: the
    error message is set, the loading flag is cleared and no chart is
    built, in whatever order the five requests settle and whatever the
    other four answer. *)
Theorem sweep_failure_fails_submission
    (s : AppState) (primary : Reply) (p : JsVal) (replies : nat → Reply)
    (order : list nat) :
  predicted_price primary = Some p →
  order ≡ₚ seq 1 5 →
  (∃ i, i ∈ seq 1 5 ∧ predicted_price (replies i) = None) →
  ∃ c, submission s primary replies order = Some c
       ∧ phase c = Finished
       ∧ error (app c) = "Error predicting price. Please try again."
       ∧ loading (app c) = false
       ∧ chartData (app c) = chartData s
       ∧ Forall (fun e => ∀ chart, e ≠ SetChartData chart) (log c).
Proof.
  intros Hp Horder Hfail.
  exists (catch_finally (sweep_started s p)).
  split; [by apply submission_sweep_failed|].
  repeat split.
  cbn. repeat constructor; done.
Qed.

Lemma sweep_failure_fails_submission_witness :
  ∃ c, submission scenario (priced 270000)
         (fun i => if (i =? 3)%nat then Rejected else priced 1) [3; 1; 2; 4; 5]%nat
       = Some c
       ∧ phase c = Finished
       ∧ error (app c) = "Error predicting price. Please try again."
       ∧ loading (app c) = false
       ∧ chartData (app c) = chartData scenario
       ∧ Forall (fun e => ∀ chart, e ≠ SetChartData chart) (log c).
Proof.
  apply (sweep_failure_fails_submission scenario (priced 270000) (VNum 270000)).
  - reflexivity.
  - apply (Permutation_cons_app [1; 2]%nat [4; 5]%nat 3%nat). reflexivity.
  - exists 3%nat. split; [set_solver | reflexivity].
Defined.

(** C2.  When the primary request fails, the only request ever issued is
    the primary one, and the handler ends in the failure state with the
    fixed message. *)
Theorem primary_failure_issues_no_sweep
    (s : AppState) (primary : Reply) (evs : list Event) :
  predicted_price primary = None →
  ∃ c, run (handleSubmit s) (Settle 0 primary :: evs) = Some c
       ∧ phase c = Finished
       ∧ requests (log c) = [predict_url (squareFootage s) (bedrooms s)]
       ∧ error (app c) = "Error predicting price. Please try again."
       ∧ loading (app c) = false
       ∧ predictedPrice (app c) = VNull
       ∧ chartData (app c) = chartData s.
Proof.
  intros Hp. exists (catch_finally (handleSubmit s)).
  split; [by apply primary_failed|]. by repeat split.
Qed.

Lemma primary_failure_issues_no_sweep_witness :
  ∃ c, run (handleSubmit scenario) [Settle 0 Rejected] = Some c
       ∧ phase c = Finished
       ∧ requests (log c) = [predict_url "1200" "3"]
       ∧ error (app c) = "Error predicting price. Please try again."
       ∧ loading (app c) = false
       ∧ predictedPrice (app c) = VNull
       ∧ chartData (app c) = None.
Proof.
  apply (primary_failure_issues_no_sweep scenario Rejected []). reflexivity.
Defined.

(** ** Merging the sweep *)

(** C3.  On a fully successful submission the chart's first dataset holds
    the price answered to request 1, then to request 2, and so on, under
    the labels 1000, 1500, 2000, 2500, 3000, request [i] being the one
    sent for the [i]-th reference value: two completion orders of the
    same answers give the same final configuration. *)
Theorem sweep_merged_by_request_index
    (s : AppState) (primary : Reply) (p : JsVal) (replies : nat → Reply)
    (values : nat → JsVal) (order order' : list nat) :
  predicted_price primary = Some p →
  (∀ i, i ∈ seq 1 5 → predicted_price (replies i) = Some (values i)) →
  order ≡ₚ seq 1 5 →
  order' ≡ₚ seq 1 5 →
  ∃ c chart,
    submission s primary replies order = Some c
    ∧ submission s primary replies order' = Some c
    ∧ chartData (app c) = Some chart
    ∧ labels chart = [1000; 1500; 2000; 2500; 3000]
    ∧ line_data (fst (datasets chart))
      = [values 1; values 2; values 3; values 4; values 5]%nat
    ∧ requests (log c)
      = [predict_url (squareFootage s) (bedrooms s);
         predict_url "1000" (bedrooms s);
         predict_url "1500" (bedrooms s);
         predict_url "2000" (bedrooms s);
         predict_url "2500" (bedrooms s);
         predict_url "3000" (bedrooms s)].
Proof.
  intros Hp Hall Horder Horder'.
  exists (succeeded s p (values <$> seq 1 5)).
  eexists. split; [by apply submission_succeeded|].
  split; [by apply submission_succeeded|].
  split; [reflexivity|]. by repeat split.
Qed.

Lemma sweep_merged_by_request_index_witness :
  ∃ c chart,
    submission scenario (priced 270000) (fun i => priced (inject_Z (Z.of_nat i)))
      [3; 1; 2; 4; 5]%nat = Some c
    ∧ submission scenario (priced 270000) (fun i => priced (inject_Z (Z.of_nat i)))
        [1; 2; 3; 4; 5]%nat = Some c
    ∧ chartData (app c) = Some chart
    ∧ labels chart = [1000; 1500; 2000; 2500; 3000]
    ∧ line_data (fst (datasets chart)) = [VNum 1; VNum 2; VNum 3; VNum 4; VNum 5]
    ∧ requests (log c)
      = [predict_url "1200" "3"; predict_url "1000" "3"; predict_url "1500" "3";
         predict_url "2000" "3"; predict_url "2500" "3"; predict_url "3000" "3"].
Proof.
  apply (sweep_merged_by_request_index scenario (priced 270000) (VNum 270000)
           (fun i => priced (inject_Z (Z.of_nat i)))
           (fun i => VNum (inject_Z (Z.of_nat i)))).
  - reflexivity.
  - intros i _. reflexivity.
  - apply (Permutation_cons_app [1; 2]%nat [4; 5]%nat 3%nat). reflexivity.
  - reflexivity.
Defined.

(** ** The states of a submission *)

(** C6.  The part of the handler that runs inside the submit event calls
    [setError('')], [setPredictedPrice(null)] and [setLoading(true)], in
    this order, before it calls [axios.get] for the first time; at that
    call the error is empty, the price is [null] and the loading flag is
    set, and every later effect of the submission comes after it. *)
Theorem submit_clears_then_requests
    (s : AppState) (evs : list Event) (c : Config) :
  run (handleSubmit s) evs = Some c →
  phase (handleSubmit s) = AwaitPrimary
  ∧ log (handleSubmit s)
    = [PreventDefault; SetError ""; SetPredictedPrice VNull; SetLoading true;
       Get (predict_url (squareFootage s) (bedrooms s))]
  ∧ app (handleSubmit s)
    = replay s [PreventDefault; SetError ""; SetPredictedPrice VNull; SetLoading true]
  ∧ error (app (handleSubmit s)) = ""
  ∧ predictedPrice (app (handleSubmit s)) = VNull
  ∧ loading (app (handleSubmit s)) = true
  ∧ ∃ later, log c = log (handleSubmit s) ++ later.
Proof.
  intros Hrun. do 6 (split; [reflexivity|]).
  apply handleSubmit_reachable in Hrun.
  destruct Hrun; eexists; cbn; reflexivity.
Qed.

Lemma submit_clears_then_requests_witness :
  phase (handleSubmit scenario) = AwaitPrimary
  ∧ log (handleSubmit scenario)
    = [PreventDefault; SetError ""; SetPredictedPrice VNull; SetLoading true;
       Get (predict_url "1200" "3")]
  ∧ app (handleSubmit scenario)
    = replay scenario [PreventDefault; SetError ""; SetPredictedPrice VNull; SetLoading true]
  ∧ error (app (handleSubmit scenario)) = ""
  ∧ predictedPrice (app (handleSubmit scenario)) = VNull
  ∧ loading (app (handleSubmit scenario)) = true
  ∧ ∃ later,
      log (catch_finally (sweep_started scenario (VNum 270000)))
      = log (handleSubmit scenario) ++ later.
Proof.
  apply (submit_clears_then_requests scenario
           [Settle 0 (priced 270000); Settle 2 Rejected]).
  reflexivity.
Defined.

(** C7.  Whatever the six requests answer and in whatever order the
    sweep settles, the submission runs the handler to its end, through
    the chart or through the [catch] block, and leaves the loading flag
    cleared and the button enabled; and in no run of the handler is there
    a configuration in which the handler has ended with the flag set. *)
Theorem completed_submission_not_loading
    (s : AppState) (primary : Reply) (replies : nat → Reply) (order : list nat) :
  order ≡ₚ seq 1 5 →
  (∃ c, submission s primary replies order = Some c
        ∧ phase c = Finished
        ∧ loading (app c) = false
        ∧ button_disabled (render (app c)) = false)
  ∧ (∀ (evs : list Event) (c : Config),
       run (handleSubmit s) evs = Some c →
       phase c = Finished →
       loading (app c) = false).
Proof.
  intros Horder. split.
  - destruct (submission_finishes s primary replies order Horder) as (c & Hrun & Hphase).
    exists c. split; [done|]. split; [done|].
    apply handleSubmit_reachable in Hrun.
    destruct Hrun; (discriminate Hphase || by split).
  - intros evs c Hrun%handleSubmit_reachable Hphase.
    destruct Hrun; (discriminate Hphase || reflexivity).
Qed.

Lemma completed_submission_not_loading_witness :
  (∃ c, submission scenario (priced 270000)
          (fun i => if decide (i = 2%nat) then Rejected else priced 1)
          [3; 1; 2; 4; 5]%nat = Some c
        ∧ phase c = Finished
        ∧ loading (app c) = false
        ∧ button_disabled (render (app c)) = false)
  ∧ (∀ (evs : list Event) (c : Config),
       run (handleSubmit scenario) evs = Some c →
       phase c = Finished →
       loading (app c) = false).
Proof.
  apply (completed_submission_not_loading scenario (priced 270000)
           (fun i => if decide (i = 2%nat) then Rejected else priced 1)
           [3; 1; 2; 4; 5]%nat).
  apply (Permutation_cons_app [1; 2]%nat [4; 5]%nat 3%nat). reflexivity.
Defined.

(** A primary request that fails ends the submission at once, with the
    flag cleared, before any other request exists. *)
Example primary_failure_clears_loading :
  (fun c => (phase c, loading (app c))) <$> run (handleSubmit scenario) [Settle 0 Rejected]
  = Some (Finished, false).
Proof. reflexivity. Qed.

(** Five rejected answers end it as well. *)
Example five_rejections_clear_loading :
  (fun c => (phase c, loading (app c)))
    <$> submission scenario (priced 270000) (fun _ => Rejected) [1; 2; 3; 4; 5]%nat
  = Some (Finished, false).
Proof. reflexivity. Qed.

(** Before the handler has run to its end the loading flag stays set:
    the only way out of loading is the completion of the handler. *)
Lemma pending_submission_loading (s : AppState) (evs : list Event) (c : Config) :
  run (handleSubmit s) evs = Some c →
  phase c ≠ Finished →
  loading (app c) = true ∧ error (app c) = "" ∧ chartData (app c) = chartData s.
Proof.
  intros Hrun%handleSubmit_reachable Hphase.
  destruct Hrun; try done.
Qed.

(** C5, as amended.  A completed submission has cleared the loading flag
    and is in exactly one of two outcomes.  Success: the error is empty and
    the chart is the one just built around the stored price.  Failure: the
    error is the fixed message, no chart was built and [chartData] is what
    it was before the submission; when only the primary request was issued
    the stored price is [null]. *)
Theorem completed_submission_outcome
    (s : AppState) (evs : list Event) (c : Config) :
  run (handleSubmit s) evs = Some c →
  phase c = Finished →
  loading (app c) = false
  ∧ ((error (app c) = ""
      ∧ ∃ predictions,
          chartData (app c)
          = Some (newChartData (squareFootage s) (predictedPrice (app c)) predictions))
     ∨ (error (app c) = "Error predicting price. Please try again."
        ∧ chartData (app c) = chartData s
        ∧ Forall (fun e => ∀ chart, e ≠ SetChartData chart) (log c)
        ∧ (requests (log c) = [predict_url (squareFootage s) (bedrooms s)] →
           predictedPrice (app c) = VNull))).
Proof.
  intros Hrun%handleSubmit_reachable Hphase.
  destruct Hrun; try discriminate Hphase; (split; [reflexivity|]).
  - right. repeat split. cbn. repeat constructor; done.
  - right. repeat split; [|done]. cbn. repeat constructor; done.
  - left. split; [reflexivity|]. by exists predictions.
Qed.

Lemma completed_submission_outcome_witness :
  let c := catch_finally (sweep_started scenario (VNum 270000)) in
  loading (app c) = false
  ∧ ((error (app c) = ""
      ∧ ∃ predictions,
          chartData (app c)
          = Some (newChartData "1200" (predictedPrice (app c)) predictions))
     ∨ (error (app c) = "Error predicting price. Please try again."
        ∧ chartData (app c) = None
        ∧ Forall (fun e => ∀ chart, e ≠ SetChartData chart) (log c)
        ∧ (requests (log c) = [predict_url "1200" "3"] →
           predictedPrice (app c) = VNull))).
Proof.
  apply (completed_submission_outcome scenario
           [Settle 0 (priced 270000); Settle 2 Rejected]);
    reflexivity.
Defined.

(** C5, as written, fails: when the sweep fails after a successful primary
    request, the price of the primary response stays stored next to the
    error message. *)
Lemma failure_keeps_primary_price : ¬ failure_carries_only_message.
Proof.
  intros Hclaim.
  specialize (Hclaim scenario [Settle 0 (priced 270000); Settle 2 Rejected]
                (catch_finally (sweep_started scenario (VNum 270000)))).
  discriminate Hclaim; [reflexivity | reflexivity | discriminate].
Qed.

(** In that state the view shows the error text and the price together. *)
Example failure_renders_price_and_error :
  let v := render (app (catch_finally (sweep_started scenario (VNum 270000)))) in
  shown (error_text v) = Some "Error predicting price. Please try again."
  ∧ heading <$> shown (price_paper v) = Some (PriceText (VNum 270000)).
Proof. split; reflexivity. Qed.

(** ** Submissions against a deterministic service *)

Ltac log_extends :=
  cbn [log suspend]; rewrite ?log_perform;
  cbn [log emit]; rewrite <- ?app_assoc;
  first [ by eexists | exists []; by rewrite app_nil_r ].

Lemma step_log (c c' : Config) (e : Event) :
  step c e = Some c' → ∃ later, log c' = log c ++ later.
Proof.
  unfold step. destruct (phase c) as [|p slots|], e as [[|k] r]; try done.
  - intros [= <-]. unfold resume_primary, catch_finally.
    destruct (predicted_price r); log_extends.
  - unfold resume_all, catch_finally.
    destruct (slots !! k) as [[|]|]; try done.
    destruct (predicted_price r); [destruct (mapM id _)|];
      intros [= <-]; log_extends.
  - intros [= <-]. log_extends.
  - intros [= <-]. log_extends.
Qed.

Lemma run_service_run (service : string → Reply) (order : list nat) :
  ∀ c : Config,
    (∀ i, i ∈ order → is_Some (requests (log c) !! i)) →
    run_service service c order
    = run c (settlements (fun i => service (default "" (requests (log c) !! i))) order).
Proof.
  induction order as [|i order IH]; intros c Hreq; [done|].
  unfold settlements. rewrite fmap_cons. cbn [run_service run]. unfold serve.
  destruct (Hreq i) as [url Hurl]; [apply list_elem_of_here|].
  rewrite Hurl. change (default "" (Some url)) with url.
  destruct (step c (Settle i (service url))) as [c'|] eqn:Hstep; [|done].
  destruct (step_log _ _ _ Hstep) as [later Hlog].
  assert (∀ j, j ∈ order → requests (log c') !! j = requests (log c) !! j) as Hsame.
  { intros j Hj. destruct (Hreq j) as [u Hu]; [by apply list_elem_of_further|].
    rewrite Hlog, requests_app, Hu. by apply lookup_app_l_Some. }
  rewrite IH.
  - unfold settlements. f_equal. apply list_fmap_ext. intros k j Hj.
    rewrite Hsame; [done | by eapply list_elem_of_lookup_2].
  - intros j Hj. rewrite Hsame by done. apply Hreq. by apply list_elem_of_further.
Qed.

Lemma run_service_cons (service : string → Reply) (c c' : Config) (e : Event)
    (i : nat) (order : list nat) :
  serve service c i = Some e →
  step c e = Some c' →
  run_service service c (i :: order) = run_service service c' order.
Proof. intros Hserve Hstep. cbn [run_service]. by rewrite Hserve, Hstep. Qed.

Lemma run_cons (c c' : Config) (e : Event) (evs : list Event) :
  step c e = Some c' → run c (e :: evs) = run c' evs.
Proof. intros Hstep. cbn [run]. by rewrite Hstep. Qed.

Lemma run_service_submission
    (service : string → Reply) (s : AppState) (p : JsVal) (order : list nat) :
  predicted_price (service (predict_url (squareFootage s) (bedrooms s))) = Some p →
  order ≡ₚ seq 1 5 →
  run_service service (handleSubmit s) (0%nat :: order)
  = submission s (service (predict_url (squareFootage s) (bedrooms s)))
      (sweep_replies service s p) order.
Proof.
  intros Hp Horder. unfold submission.
  rewrite (run_cons _ _ _ _ (primary_fulfilled s _ p Hp)).
  rewrite (run_service_cons service (handleSubmit s) _ _ 0 order
             eq_refl (primary_fulfilled s _ p Hp)).
  rewrite run_service_run; [reflexivity|].
  intros i Hi. rewrite Horder in Hi. apply elem_of_seq in Hi.
  destruct i as [|i]; [lia|]. do 5 (destruct i as [|i]; [by eexists|]). lia.
Qed.

(** ** The chart of a successful submission *)

(** C4, as amended.  When all six requests succeed, in whatever order the
    sweep settles, the handler ends with an empty error, the loading flag
    cleared, the primary price stored, and a chart of exactly five
    reference points and one highlighted point; the abscissa of that point
    is [parseInt] of the raw square footage, which is the submitted number
    whenever the raw text is the plain text of an integer of magnitude at
    most [2 ^ 53 - 1]. *)
Theorem full_success_builds_chart
    (s : AppState) (primary : Reply) (p : JsVal) (replies : nat → Reply)
    (order : list nat) :
  predicted_price primary = Some p →
  (∀ i, i ∈ seq 1 5 → is_Some (predicted_price (replies i))) →
  order ≡ₚ seq 1 5 →
  ∃ c chart,
    submission s primary replies order = Some c
    ∧ phase c = Finished
    ∧ error (app c) = ""
    ∧ loading (app c) = false
    ∧ predictedPrice (app c) = p
    ∧ chartData (app c) = Some chart
    ∧ length (labels chart) = 5%nat
    ∧ length (line_data (fst (datasets chart))) = 5%nat
    ∧ point_data (snd (datasets chart))
      = [ {| x := parseInt (squareFootage s); y := p |} ]
    ∧ (∀ n : Z, Z.abs n ≤ MAX_SAFE_INTEGER →
         squareFootage s = Number_toString n →
         parseInt (squareFootage s) = VNum (inject_Z n)).
Proof.
  intros Hp Hall Horder.
  exists (succeeded s p
            ((fun i => default VUndefined (predicted_price (replies i))) <$> seq 1 5)).
  eexists. split.
  { apply submission_succeeded; [done..|].
    intros i Hi. by destruct (Hall i Hi) as [v ->]. }
  do 8 (split; [reflexivity|]).
  intros n Hsafe ->. by apply parseInt_Number_toString.
Qed.

Lemma full_success_builds_chart_witness :
  ∃ c chart,
    submission scenario (priced 270000) (fun _ => priced 1) [3; 1; 2; 4; 5]%nat = Some c
    ∧ phase c = Finished
    ∧ error (app c) = ""
    ∧ loading (app c) = false
    ∧ predictedPrice (app c) = VNum 270000
    ∧ chartData (app c) = Some chart
    ∧ length (labels chart) = 5%nat
    ∧ length (line_data (fst (datasets chart))) = 5%nat
    ∧ point_data (snd (datasets chart))
      = [ {| x := parseInt "1200"; y := VNum 270000 |} ]
    ∧ (∀ n : Z, Z.abs n ≤ MAX_SAFE_INTEGER →
         "1200" = Number_toString n → parseInt "1200" = VNum (inject_Z n)).
Proof.
  apply (full_success_builds_chart scenario (priced 270000) (VNum 270000)
           (fun _ => priced 1)).
  - reflexivity.
  - intros i _. by eexists.
  - apply (Permutation_cons_app [1; 2]%nat [4; 5]%nat 3%nat). reflexivity.
Defined.

(** C4, as written, fails: for the raw square footage "1e3", which the
    number field accepts as the number 1000 and the request carries as
    typed, the highlighted point is at 1. *)
Lemma highlight_not_at_submitted_square_footage :
  ¬ highlight_at_submitted_square_footage.
Proof.
  intros Hclaim.
  destruct (Hclaim (setSquareFootage "1e3" scenario) 1000%Q
              (priced 230000) (VNum 230000)
              (fun _ => priced 1) (seq 1 5)
              (succeeded (setSquareFootage "1e3" scenario) (VNum 230000)
                 [VNum 1; VNum 1; VNum 1; VNum 1; VNum 1]))
    as (chart & q' & Hchart & Hpoint & Hq).
  - reflexivity.
  - reflexivity.
  - intros i _. by eexists.
  - reflexivity.
  - reflexivity.
  - injection Hchart as <-. injection Hpoint as <-.
    discriminate Hq.
Qed.

(** C8, as amended.  In the example scenario the collaborator prices the
    primary request at 200 * 1200 + 10000 * 3 = 270000; the chart has the
    five reference prices and the highlighted point (1200, 270000),
    whatever the order in which the sweep settles. *)
Theorem scenario_yields_270000 (order : list nat) :
  order ≡ₚ seq 1 5 →
  ∃ c chart,
    run_service mock_service (handleSubmit scenario) (0%nat :: order) = Some c
    ∧ predictedPrice (app c) = VNum 270000
    ∧ chartData (app c) = Some chart
    ∧ labels chart = [1000; 1500; 2000; 2500; 3000]
    ∧ line_data (fst (datasets chart))
      = [VNum 230000; VNum 330000; VNum 430000; VNum 530000; VNum 630000]
    ∧ point_data (snd (datasets chart)) = [ {| x := VNum 1200; y := VNum 270000 |} ].
Proof.
  intros Horder.
  exists (succeeded scenario (VNum 270000) (scenario_predictions <$> seq 1 5)).
  eexists. split.
  { rewrite (run_service_submission mock_service scenario (VNum 270000));
      [|reflexivity|done].
    apply submission_succeeded; [reflexivity | done |].
    intros i Hi. apply elem_of_seq in Hi.
    destruct i as [|i]; [lia|].
    do 5 (destruct i as [|i]; [reflexivity|]). lia. }
  by repeat split.
Qed.

Lemma scenario_yields_270000_witness :
  ∃ c chart,
    run_service mock_service (handleSubmit scenario) [0; 3; 1; 2; 4; 5]%nat = Some c
    ∧ predictedPrice (app c) = VNum 270000
    ∧ chartData (app c) = Some chart
    ∧ labels chart = [1000; 1500; 2000; 2500; 3000]
    ∧ line_data (fst (datasets chart))
      = [VNum 230000; VNum 330000; VNum 430000; VNum 530000; VNum 630000]
    ∧ point_data (snd (datasets chart)) = [ {| x := VNum 1200; y := VNum 270000 |} ].
Proof.
  apply (scenario_yields_270000 [3; 1; 2; 4; 5]%nat).
  apply (Permutation_cons_app [1; 2]%nat [4; 5]%nat 3%nat). reflexivity.
Defined.

(** C8, as written, fails: the price of the scenario is not 280000. *)
Lemma scenario_does_not_yield_280000 : ¬ scenario_yields_280000.
Proof.
  intros (c & chart & Hrun & Hprice & _).
  vm_compute in Hrun. injection Hrun as <-.
  discriminate Hprice.
Qed.

(** ** Rendering *)

(** The price paper is rendered exactly when the stored price is truthy. *)
Lemma price_paper_guard (s : AppState) :
  price_paper (render s)
  = if truthy (predictedPrice s)
    then Shown {| heading := toLocaleString (predictedPrice s);
                  chart_box := match chartData s with
                               | Some c => Shown c
                               | None => Skipped VNull
                               end |}
    else Skipped (predictedPrice s).
Proof. reflexivity. Qed.

Lemma App_falsy (s : AppState) :
  truthy (predictedPrice s) = false → App s = Some (render s).
Proof. intros Hp. unfold App. by rewrite price_paper_guard, Hp. Qed.

Lemma App_callable (s : AppState) :
  toLocaleString_callable (predictedPrice s) = true → App s = Some (render s).
Proof.
  intros Hp. unfold App. rewrite price_paper_guard.
  destruct (truthy (predictedPrice s)); [|done].
  cbn. unfold toLocaleString. by rewrite Hp.
Qed.

Lemma App_truthy (s : AppState) :
  truthy (predictedPrice s) = true →
  App s = if toLocaleString_callable (predictedPrice s) then Some (render s) else None.
Proof.
  intros Hp. unfold App. rewrite price_paper_guard, Hp.
  cbn. unfold toLocaleString. by destruct (toLocaleString_callable (predictedPrice s)).
Qed.

(** C9, as amended.  When every request succeeds and the primary price is
    falsy, as the number 0 is, the handler ends in success (empty error,
    chart stored) and the component renders, yet neither the price
    heading nor the chart is in the tree: the expression guarding the
    paper evaluates to the price itself, which is left in the tree in the
    place of the paper.  Unless the price is [null], that is not what the
    tree holds there before any submission. *)
Theorem falsy_price_hides_success
    (s : AppState) (primary : Reply) (p : JsVal) (replies : nat → Reply)
    (order : list nat) :
  predicted_price primary = Some p →
  truthy p = false →
  (∀ i, i ∈ seq 1 5 → is_Some (predicted_price (replies i))) →
  order ≡ₚ seq 1 5 →
  ∃ c, submission s primary replies order = Some c
       ∧ phase c = Finished
       ∧ error (app c) = ""
       ∧ predictedPrice (app c) = p
       ∧ is_Some (chartData (app c))
       ∧ App (app c) = Some (render (app c))
       ∧ price_paper (render (app c)) = Skipped p
       ∧ shown (price_paper (render (app c))) = None
       ∧ shown (error_text (render (app c))) = None
       ∧ (p ≠ VNull → price_paper (render (app c)) ≠ price_paper (render initial)).
Proof.
  intros Hp Hfalsy Hall Horder.
  exists (succeeded s p
            ((fun i => default VUndefined (predicted_price (replies i))) <$> seq 1 5)).
  split.
  { apply submission_succeeded; [done..|].
    intros i Hi. by destruct (Hall i Hi) as [v ->]. }
  do 3 (split; [reflexivity|]).
  split; [by eexists|].
  split; [by apply App_falsy|].
  assert (price_paper
            (render (app (succeeded s p
               ((fun i => default VUndefined (predicted_price (replies i))) <$> seq 1 5))))
          = Skipped p) as Hpaper.
  { rewrite price_paper_guard.
    change (predictedPrice (app (succeeded s p _))) with p.
    by rewrite Hfalsy. }
  rewrite Hpaper. do 3 (split; [reflexivity|]).
  intros Hnull Heq. injection Heq as ->. by apply Hnull.
Qed.

Lemma falsy_price_hides_success_witness :
  ∃ c, submission scenario (priced 0) (fun _ => priced 1) [1; 2; 3; 4; 5]%nat = Some c
       ∧ phase c = Finished
       ∧ error (app c) = ""
       ∧ predictedPrice (app c) = VNum 0
       ∧ is_Some (chartData (app c))
       ∧ App (app c) = Some (render (app c))
       ∧ price_paper (render (app c)) = Skipped (VNum 0)
       ∧ shown (price_paper (render (app c))) = None
       ∧ shown (error_text (render (app c))) = None
       ∧ (VNum 0 ≠ VNull → price_paper (render (app c)) ≠ price_paper (render initial)).
Proof.
  apply (falsy_price_hides_success scenario (priced 0) (VNum 0) (fun _ => priced 1)).
  - reflexivity.
  - reflexivity.
  - intros i _. by eexists.
  - reflexivity.
Defined.

(** C9, as written, fails: with a price of 0 the tree holds the number 0
    where it holds [null] before any submission. *)
Lemma zero_price_not_shown_as_before_submission :
  ¬ zero_price_shown_as_before_submission.
Proof.
  intros Hclaim.
  specialize (Hclaim scenario (priced 0) (fun _ => priced 1) (seq 1 5)
                (succeeded scenario (VNum 0) [VNum 1; VNum 1; VNum 1; VNum 1; VNum 1])).
  discriminate Hclaim; [reflexivity | by eexists | reflexivity | reflexivity].
Qed.

(** With a price that is not zero the same submission shows the paper. *)
Example nonzero_price_shows_success :
  (fun c => heading <$> shown (price_paper (render (app c))))
    <$> submission scenario (priced 270000) (fun _ => priced 1) [1; 2; 3; 4; 5]%nat
  = Some (Some (PriceText (VNum 270000))).
Proof. reflexivity. Qed.

(** ** The highlighted point *)

(** *** Rounding to a double stays within a factor of two *)

Lemma round_half_even_cases (n d : Z) :
  round_half_even n d = n / d
  ∨ (round_half_even n d = n / d + 1 ∧ d ≤ 2 * (n mod d)).
Proof.
  unfold round_half_even.
  destruct (Z.ltb_spec (2 * (n mod d)) d); [by left|].
  destruct (Z.ltb_spec d (2 * (n mod d))); [right; split; [done | lia]|].
  destruct (Z.even (n / d)); [by left | right; split; [done | lia]].
Qed.

Lemma Number_of_integer_VNum (n : Z) (q : Q) :
  Number_of_integer n = VNum q →
  ∃ v : Z, q = inject_Z v ∧ Z.abs n ≤ 2 * Z.abs v ∧ Z.abs v ≤ 2 * Z.abs n.
Proof.
  unfold Number_of_integer.
  destruct (Z.ltb_spec (Z.abs n) (2 ^ 53)) as [Hsmall|Hbig].
  { intros [= <-]. exists n. split; [done | lia]. }
  set (a := Z.abs n) in *.
  set (e := Z.log2 a - 52).
  set (D := 2 ^ e).
  destruct (Z.ltb_spec (round_half_even a D * D) (2 ^ 1024)) as [_|_]; [|done].
  intros [= <-]. exists (Z.sgn n * (round_half_even a D * D)). split; [done|].
  assert (0 < a) as Ha by (change (2 ^ 53) with 9007199254740992 in Hbig; lia).
  assert (53 ≤ Z.log2 a) as Hlog.
  { rewrite <- (Z.log2_pow2 53) by lia. by apply Z.log2_le_mono. }
  assert (0 < D) as HD by (apply Z.pow_pos_nonneg; lia).
  assert (D ≤ a) as HDa.
  { transitivity (2 ^ Z.log2 a).
    - apply Z.pow_le_mono_r; lia.
    - by apply Z.log2_spec. }
  pose proof (Z.div_mod a D ltac:(lia)) as Hdiv.
  pose proof (Z.mod_pos_bound a D HD) as Hmod.
  assert (1 ≤ a / D) as Hq by (apply Z.div_le_lower_bound; lia).
  assert (0 ≤ round_half_even a D * D) as Hv.
  { destruct (round_half_even_cases a D) as [->| [-> _]]; nia. }
  assert (Z.abs (Z.sgn n * (round_half_even a D * D)) = round_half_even a D * D) as ->.
  { clear -Ha Hv. subst a. destruct n; cbn [Z.sgn] in *; lia. }
  destruct (round_half_even_cases a D) as [->| [-> Hhalf]]; nia.
Qed.

(** *** The number a text with a fractional part denotes *)

Lemma append_assoc (s1 s2 s3 : string) :
  ((s1 ++ s2) ++ s3)%string = (s1 ++ s2 ++ s3)%string.
Proof. induction s1 as [|a s1 IH]; [done|]. by rewrite !append_cons, IH. Qed.

Section FloatLiterals.
Implicit Types (d : Decimal.uint) (rest : string).

Lemma split_exponent_digits d rest :
  split_exponent (NilEmpty.string_of_uint d ++ rest)%string
  = (let '(before, after) := split_exponent rest in
     ((NilEmpty.string_of_uint d ++ before)%string, after)).
Proof.
  induction d; digits_cons;
    [by destruct (split_exponent rest)
    | cbn [split_exponent Ascii.eqb orb]; cbn; rewrite IHd;
      by destruct (split_exponent rest) ..].
Qed.

Lemma digits_string_of_uint d :
  d ≠ Decimal.Nil → digits (NilEmpty.string_of_uint d) = Some d.
Proof. intros Hd. unfold digits. rewrite NilEmpty.usu. by destruct d. Qed.

Lemma split_exponent_text (ex : option Exponent) :
  split_exponent (exponent_text ex)
  = match ex with
    | None => ("", None)
    | Some e => ("", Some (match exponent_sign e with
                           | NoSign => ""
                           | PlusSign => "+"
                           | MinusSign => "-"
                           end ++ NilEmpty.string_of_uint (exponent_digits e))%string)
    end.
Proof. destruct ex as [[[] sign ds]|]; reflexivity. Qed.

Lemma exponent_value_text (e : Exponent) :
  exponent_digits e ≠ Decimal.Nil →
  exponent_value (match exponent_sign e with
                  | NoSign => ""
                  | PlusSign => "+"
                  | MinusSign => "-"
                  end ++ NilEmpty.string_of_uint (exponent_digits e))%string
  = Some (exponent_Z e).
Proof.
  destruct e as [cap sign ds]. cbn [exponent_digits exponent_sign]. intros Hds.
  unfold exponent_Z. cbn [exponent_digits exponent_sign].
  destruct sign.
  - rewrite append_empty.
    transitivity (Z.of_uint <$> digits (NilEmpty.string_of_uint ds)).
    + destruct ds; [done | reflexivity ..].
    + by rewrite digits_string_of_uint.
  - rewrite append_cons, append_empty. cbn [exponent_value].
    by rewrite digits_string_of_uint.
  - rewrite append_cons, append_empty. cbn [exponent_value].
    by rewrite digits_string_of_uint.
Qed.

Lemma mantissa_value_fractional (int_part frac_part : Decimal.uint) :
  frac_part ≠ Decimal.Nil →
  mantissa_value
    (NilEmpty.string_of_uint int_part ++ "." ++ NilEmpty.string_of_uint frac_part)%string
  = Some (fractional_value false int_part frac_part).
Proof.
  intros Hf. unfold mantissa_value.
  rewrite append_cons, append_empty, split_at_digits, NilEmpty.usu.
  by rewrite digits_string_of_uint.
Qed.

Lemma unsigned_numeric_value_float (int_part frac_part : Decimal.uint)
    (ex : option Exponent) :
  frac_part ≠ Decimal.Nil →
  (∀ e, ex = Some e → exponent_digits e ≠ Decimal.Nil) →
  unsigned_numeric_value
    (NilEmpty.string_of_uint int_part ++ "." ++ NilEmpty.string_of_uint frac_part
     ++ exponent_text ex)%string
  = Some (float_value false int_part frac_part ex).
Proof.
  intros Hf Hex. unfold unsigned_numeric_value.
  rewrite split_exponent_digits, append_cons, append_empty.
  cbn [split_exponent Ascii.eqb orb]. cbn.
  rewrite split_exponent_digits, split_exponent_text.
  destruct ex as [e|].
  - rewrite append_nil_r.
    change (String "." (NilEmpty.string_of_uint frac_part))
      with ("." ++ NilEmpty.string_of_uint frac_part)%string.
    rewrite mantissa_value_fractional, exponent_value_text by eauto.
    reflexivity.
  - rewrite append_nil_r.
    change (String "." (NilEmpty.string_of_uint frac_part))
      with ("." ++ NilEmpty.string_of_uint frac_part)%string.
    by rewrite mantissa_value_fractional.
Qed.

Lemma numeric_value_float (negative : bool) (int_part frac_part : Decimal.uint)
    (ex : option Exponent) :
  frac_part ≠ Decimal.Nil →
  (∀ e, ex = Some e → exponent_digits e ≠ Decimal.Nil) →
  numeric_value (float_literal negative int_part frac_part ex)
  = Some (float_value negative int_part frac_part ex).
Proof.
  intros Hf Hex. unfold float_literal, fractional_literal.
  rewrite !append_assoc. destruct negative.
  - rewrite append_cons, append_empty. cbn [numeric_value].
    by rewrite unsigned_numeric_value_float.
  - rewrite append_empty.
    rewrite <- unsigned_numeric_value_float by done.
    destruct int_part; digits_cons; reflexivity.
Qed.

Lemma parseInt_float (negative : bool) (int_part frac_part : Decimal.uint)
    (ex : option Exponent) :
  parseInt (float_literal negative int_part frac_part ex)
  = match int_part with
    | Decimal.Nil => VNaN
    | _ => Number_of_integer (signed negative (Z.of_uint int_part))
    end.
Proof.
  unfold float_literal, fractional_literal. rewrite !append_assoc.
  assert (int_part = Decimal.Nil ∨ int_part ≠ Decimal.Nil) as [->|Hint]
    by (destruct int_part; [by left | by right ..]).
  - digits_cons. destruct negative; rewrite ?append_cons, ?append_empty; reflexivity.
  - rewrite parseInt_digits by done. by destruct int_part.
Qed.

End FloatLiterals.

(** *** No number read by [parseInt] is a number with a fractional part *)

Lemma no_integer_times (a F K P w : Z) :
  0 ≤ a → 0 < F < K → 1 ≤ P → Z.abs w ≤ 2 * a → w * K ≠ (a * K + F) * P.
Proof.
  intros Ha HF HP Hw Heq.
  assert (0 < a * K + F) as Hm by nia.
  assert (0 < (a * K + F) * P) as Hrhs by (apply Z.mul_pos_pos; lia).
  assert (0 < w) as Hpos by nia.
  rewrite Z.abs_eq in Hw by lia.
  destruct (decide (P = 1)) as [->|HP1].
  - rewrite Z.mul_1_r in Heq.
    destruct (Z.le_gt_cases w a) as [Hle|Hgt].
    + assert (w * K ≤ a * K) by (apply Z.mul_le_mono_nonneg_r; lia). lia.
    + assert ((a + 1) * K ≤ w * K) by (apply Z.mul_le_mono_nonneg_r; lia). lia.
  - assert ((a * K + F) * 2 ≤ (a * K + F) * P)
      by (apply Z.mul_le_mono_nonneg_l; lia).
    assert (w * K ≤ (2 * a) * K) by (apply Z.mul_le_mono_nonneg_r; lia).
    lia.
Qed.

Lemma no_integer_over (a F K P w : Z) :
  0 ≤ a → 0 < F < K → 10 ≤ P → a ≤ 2 * Z.abs w → w * (K * P) ≠ a * K + F.
Proof.
  intros Ha HF HP Haw Heq.
  assert (0 < a * K + F) as Hm by nia.
  assert (0 < K * P) as HKP by (apply Z.mul_pos_pos; lia).
  assert (0 < w) as Hpos by nia.
  rewrite Z.abs_eq in Haw by lia.
  assert (w * (K * 10) ≤ w * (K * P)) as H10.
  { apply Z.mul_le_mono_nonneg_l; [lia|].
    apply Z.mul_le_mono_nonneg_l; lia. }
  assert (a * K ≤ (2 * w) * K) by (apply Z.mul_le_mono_nonneg_r; lia).
  assert (1 * K ≤ w * K) by (apply Z.mul_le_mono_nonneg_r; lia).
  lia.
Qed.

Lemma ten_power_exponent (z : Z) :
  0 < z → ∃ P : positive, 10 ^ z = Z.pos P ∧ 10 ≤ Z.pos P.
Proof.
  intros Hz.
  assert (10 ^ 1 ≤ 10 ^ z) as Hle by (apply Z.pow_le_mono_r; lia).
  destruct (10 ^ z) as [|P|P] eqn:HP; [lia | | lia].
  exists P. split; [done | lia].
Qed.

Lemma float_value_not_read (negative : bool) (int_part frac_part : Decimal.uint)
    (ex : option Exponent) (v : Z) :
  Z.of_uint frac_part ≠ 0 →
  Z.of_uint int_part ≤ 2 * Z.abs v →
  Z.abs v ≤ 2 * Z.of_uint int_part →
  ¬ (inject_Z v == float_value negative int_part frac_part ex)%Q.
Proof.
  intros Hfrac Hlow Hhigh.
  assert (frac_part ≠ Decimal.Nil) as Hnil by (by intros ->).
  pose proof (of_uint_bound frac_part) as HF.
  pose proof (of_uint_bound int_part) as [Ha _].
  pose proof (frac_denominator frac_part Hnil) as HK.
  assert (∀ w, (inject_Z w == float_value false int_part frac_part ex)%Q →
               Z.abs w ≤ 2 * Z.of_uint int_part →
               Z.of_uint int_part ≤ 2 * Z.abs w → False)
    as Hpositive.
  { intros w Heq Hw2 Hw3. unfold float_value, fractional_value in Heq.
    set (D := Pos.pow 10 (Pos.of_nat (Decimal.nb_digits frac_part))) in *.
    destruct ex as [e|].
    - unfold scale in Heq.
      destruct (Z.leb_spec 0 (exponent_Z e)) as [Hz|Hz].
      + destruct (decide (exponent_Z e = 0)) as [Hz0|Hz0].
        * rewrite Hz0 in Heq. unfold Qeq in Heq.
          cbn [Qnum Qden Qplus Qmult inject_Z Z.pow Z.pow_pos Pos.iter] in Heq.
          apply (no_integer_times (Z.of_uint int_part) (Z.of_uint frac_part)
                   (Z.pos D) 1 w); lia.
        * destruct (ten_power_exponent (exponent_Z e)) as (P & HP & HP10); [lia|].
          rewrite HP in Heq. unfold Qeq in Heq.
          cbn [Qnum Qden Qplus Qmult inject_Z] in Heq.
          apply (no_integer_times (Z.of_uint int_part) (Z.of_uint frac_part)
                   (Z.pos D) (Z.pos P) w); lia.
      + destruct (ten_power_exponent (- exponent_Z e)) as (P & HP & HP10); [lia|].
        rewrite HP in Heq. unfold Qeq, Qdiv in Heq.
        cbn [Qnum Qden Qplus Qmult Qinv inject_Z] in Heq.
        apply (no_integer_over (Z.of_uint int_part) (Z.of_uint frac_part)
                 (Z.pos D) (Z.pos P) w); lia.
    - unfold Qeq in Heq. cbn [Qnum Qden Qplus inject_Z] in Heq.
      apply (no_integer_times (Z.of_uint int_part) (Z.of_uint frac_part)
               (Z.pos D) 1 w); lia. }
  intros Heq. destruct negative.
  - apply (Hpositive (- v)); [|lia|lia].
    change (float_value true int_part frac_part ex)
      with (- float_value false int_part frac_part ex)%Q in Heq.
    rewrite inject_Z_opp, Heq. apply Qopp_involutive.
  - by apply (Hpositive v).
Qed.

(** C10, as amended.  The primary request carries the raw square footage
    and the abscissa of the highlighted point is [parseInt] of it.  For
    every raw text with digits after a point that are not all zero, with
    or without an exponent, the abscissa is not the number sent: it is
    [NaN] when no digit stands before the point, and otherwise the Number
    nearest to the integer written before the point.  That is the number
    sent rounded toward zero when the text has no exponent and the integer
    is at most [2 ^ 53 - 1]. *)
Theorem highlight_is_parseInt_of_fractional_input
    (s : AppState) (negative : bool) (int_part frac_part : Decimal.uint)
    (ex : option Exponent)
    (primary : Reply) (p : JsVal) (replies : nat → Reply) (order : list nat) :
  squareFootage s = float_literal negative int_part frac_part ex →
  Z.of_uint frac_part ≠ 0 →
  (∀ e, ex = Some e → exponent_digits e ≠ Decimal.Nil) →
  predicted_price primary = Some p →
  (∀ i, i ∈ seq 1 5 → is_Some (predicted_price (replies i))) →
  order ≡ₚ seq 1 5 →
  ∃ c chart sent,
    submission s primary replies order = Some c
    ∧ head (requests (log c))
      = Some ("http://localhost:8000/predict/" ++ squareFootage s ++ "/" ++ bedrooms s)%string
    ∧ numeric_value (squareFootage s) = Some sent
    ∧ chartData (app c) = Some chart
    ∧ point_data (snd (datasets chart))
      = [ {| x := parseInt (squareFootage s); y := p |} ]
    ∧ parseInt (squareFootage s)
      = match int_part with
        | Decimal.Nil => VNaN
        | _ => Number_of_integer (signed negative (Z.of_uint int_part))
        end
    ∧ (∀ q : Q, (q == sent)%Q → parseInt (squareFootage s) ≠ VNum q)
    ∧ (ex = None → int_part ≠ Decimal.Nil → Z.of_uint int_part ≤ MAX_SAFE_INTEGER →
       parseInt (squareFootage s) = VNum (inject_Z (Qtruncate sent))).
Proof.
  intros Hraw Hfrac Hex Hp Hall Horder.
  assert (frac_part ≠ Decimal.Nil) as Hnil by (by intros ->).
  pose proof (of_uint_bound int_part) as [Hint0 _].
  exists (succeeded s p
            ((fun i => default VUndefined (predicted_price (replies i))) <$> seq 1 5)).
  eexists.
  exists (float_value negative int_part frac_part ex).
  split.
  { apply submission_succeeded; [done..|].
    intros i Hi. by destruct (Hall i Hi) as [v ->]. }
  split; [reflexivity|].
  split; [rewrite Hraw; by apply numeric_value_float|].
  split; [reflexivity|].
  split; [reflexivity|].
  rewrite Hraw, parseInt_float.
  split; [reflexivity|].
  assert (int_part = Decimal.Nil ∨ int_part ≠ Decimal.Nil) as [->|Hint]
    by (destruct int_part; [by left | by right ..]).
  { split; [discriminate | done]. }
  assert (match int_part with
          | Decimal.Nil => VNaN
          | _ => Number_of_integer (signed negative (Z.of_uint int_part))
          end = Number_of_integer (signed negative (Z.of_uint int_part))) as ->
    by (by destruct int_part).
  split.
  - intros q Hq Hparse.
    apply Number_of_integer_VNum in Hparse as (v & -> & Hlow & Hhigh).
    apply (float_value_not_read negative int_part frac_part ex v); [done| | |done].
    + destruct negative; unfold signed in Hlow; lia.
    + destruct negative; unfold signed in Hhigh; lia.
  - intros -> _ Hsafe.
    change (float_value negative int_part frac_part None)
      with (fractional_value negative int_part frac_part).
    rewrite Qtruncate_fractional_value by done.
    apply Number_of_integer_safe.
    destruct negative; unfold signed; lia.
Qed.

Lemma highlight_is_parseInt_of_fractional_input_witness :
  ∃ c chart sent,
    submission fractional_scenario (priced 270100) (fun _ => priced 1)
      [1; 2; 3; 4; 5]%nat = Some c
    ∧ head (requests (log c)) = Some "http://localhost:8000/predict/1200.5/3"
    ∧ numeric_value "1200.5" = Some sent
    ∧ chartData (app c) = Some chart
    ∧ point_data (snd (datasets chart))
      = [ {| x := parseInt "1200.5"; y := VNum 270100 |} ]
    ∧ parseInt "1200.5" = Number_of_integer 1200
    ∧ (∀ q : Q, (q == sent)%Q → parseInt "1200.5" ≠ VNum q)
    ∧ (@None Exponent = None →
       Decimal.D1 (Decimal.D2 (Decimal.D0 (Decimal.D0 Decimal.Nil))) ≠ Decimal.Nil →
       1200 ≤ MAX_SAFE_INTEGER →
       parseInt "1200.5" = VNum (inject_Z (Qtruncate sent))).
Proof.
  apply (highlight_is_parseInt_of_fractional_input fractional_scenario false
           (Decimal.D1 (Decimal.D2 (Decimal.D0 (Decimal.D0 Decimal.Nil))))
           (Decimal.D5 Decimal.Nil) None
           (priced 270100) (VNum 270100) (fun _ => priced 1)).
  - reflexivity.
  - discriminate.
  - discriminate.
  - reflexivity.
  - intros i _. by eexists.
  - reflexivity.
Defined.

(** C10, as written, fails: the abscissa is not always the number sent
    rounded toward zero.  The raw text "1.5e3" denotes 1500 and is sent as
    such; the highlighted point is at 1. *)
Lemma highlight_is_not_truncation_of_square_footage :
  ¬ highlight_is_truncation_of_square_footage.
Proof.
  intros Hclaim.
  destruct (Hclaim exponent_scenario (15000 # 10)%Q (priced 330000) (VNum 330000)
              (fun _ => priced 1) (seq 1 5)
              (succeeded exponent_scenario (VNum 330000)
                 [VNum 1; VNum 1; VNum 1; VNum 1; VNum 1]))
    as (chart & Hchart & Hpoint).
  - reflexivity.
  - reflexivity.
  - intros i _. by eexists.
  - reflexivity.
  - reflexivity.
  - injection Hchart as <-. discriminate Hpoint.
Qed.

(** Without a digit before the point nothing is read: the point is at
    [NaN], which is not the number sent rounded toward zero either. *)
Example highlight_of_point_5 :
  parseInt ".5" = VNaN ∧ numeric_value ".5" = Some (5 # 10)%Q.
Proof. split; reflexivity. Qed.

(** When only zeros follow the point the abscissa is the number sent,
    though its text is not the text sent. *)
Example highlight_of_1200_point_0 :
  parseInt "1200.0" = VNum 1200 ∧ Number_toString 1200 ≠ "1200.0".
Proof. split; [reflexivity | discriminate]. Qed.

(** * Further properties of the component *)

(** ** What holds all along a call of the handler *)

(** X1.  A call of the handler never writes to the two input cells: in
    every configuration it goes through, the fields hold what they held at
    the submit, and so does the closure. *)
Theorem handler_keeps_the_fields (s : AppState) (evs : list Event) (c : Config) :
  run (handleSubmit s) evs = Some c →
  squareFootage (app c) = squareFootage s
  ∧ bedrooms (app c) = bedrooms s
  ∧ closure_squareFootage c = squareFootage s
  ∧ closure_bedrooms c = bedrooms s
  ∧ squareFootage_field (render (app c)) = squareFootage s
  ∧ bedrooms_field (render (app c)) = bedrooms s.
Proof.
  intros Hrun%handleSubmit_reachable. destruct Hrun; repeat split.
Qed.

Lemma handler_keeps_the_fields_witness :
  let c := catch_finally (sweep_started scenario (VNum 270000)) in
  squareFootage (app c) = "1200"
  ∧ bedrooms (app c) = "3"
  ∧ closure_squareFootage c = "1200"
  ∧ closure_bedrooms c = "3"
  ∧ squareFootage_field (render (app c)) = "1200"
  ∧ bedrooms_field (render (app c)) = "3".
Proof.
  apply (handler_keeps_the_fields scenario
           [Settle 0 (priced 270000); Settle 2 Rejected]).
  reflexivity.
Defined.

(** X2.  The submit button is disabled and shows the spinner in every
    configuration in which the handler is suspended, and is enabled with
    its text again once the handler has run to its end. *)
Theorem button_disabled_while_pending (s : AppState) (evs : list Event) (c : Config) :
  run (handleSubmit s) evs = Some c →
  (phase c ≠ Finished →
   button_disabled (render (app c)) = true
   ∧ button_content (render (app c)) = CircularProgress)
  ∧ (phase c = Finished →
     button_disabled (render (app c)) = false
     ∧ button_content (render (app c)) = PredictPriceText).
Proof.
  intros Hrun%handleSubmit_reachable.
  destruct Hrun; (split; intros Hphase; [try done | try done]).
Qed.

Lemma button_disabled_while_pending_witness :
  let c := suspend (AwaitAll (VNum 270000) [None; Some (VNum 1); None; None; None])
             (sweep_started scenario (VNum 270000)) in
  (phase c ≠ Finished →
   button_disabled (render (app c)) = true
   ∧ button_content (render (app c)) = CircularProgress)
  ∧ (phase c = Finished →
     button_disabled (render (app c)) = false
     ∧ button_content (render (app c)) = PredictPriceText).
Proof.
  apply (button_disabled_while_pending scenario
           [Settle 0 (priced 270000); Settle 2 (priced 1)]).
  reflexivity.
Defined.

(** X3.  A call of the handler issues either the primary request alone or
    the primary request followed by the whole sweep, never a part of the
    sweep and never a seventh request; the requests of the sweep carry the
    bedroom count of the submit and do not depend on the square footage. *)
Theorem one_or_six_requests (s : AppState) (evs : list Event) (c : Config) :
  run (handleSubmit s) evs = Some c →
  requests (log c) = [predict_url (squareFootage s) (bedrooms s)]
  ∨ requests (log c)
    = [predict_url (squareFootage s) (bedrooms s);
       predict_url "1000" (bedrooms s);
       predict_url "1500" (bedrooms s);
       predict_url "2000" (bedrooms s);
       predict_url "2500" (bedrooms s);
       predict_url "3000" (bedrooms s)].
Proof.
  intros Hrun%handleSubmit_reachable.
  destruct Hrun; (by left) || (by right).
Qed.

Lemma one_or_six_requests_witness :
  let c := catch_finally (sweep_started scenario (VNum 270000)) in
  requests (log c) = [predict_url "1200" "3"]
  ∨ requests (log c)
    = [predict_url "1200" "3"; predict_url "1000" "3"; predict_url "1500" "3";
       predict_url "2000" "3"; predict_url "2500" "3"; predict_url "3000" "3"].
Proof.
  apply (one_or_six_requests scenario
           [Settle 0 (priced 270000); Settle 2 Rejected]).
  reflexivity.
Defined.

(** ** What the user sees between the two awaits and after a failure *)

(** X4.  From the arrival of the primary response until the sweep is
    over, the new price is already stored and guarded into view, while
    [chartData] is still the chart of the previous submission: a truthy
    price is displayed over the previous chart, or with no chart when
    there was none, with the heading [toLocaleString] makes of it; when
    that call throws, the component function throws and returns no
    tree. *)
Theorem price_shown_over_previous_chart
    (s : AppState) (evs : list Event) (c : Config) (p : JsVal)
    (slots : list (option JsVal)) :
  run (handleSubmit s) evs = Some c →
  phase c = AwaitAll p slots →
  predictedPrice (app c) = p
  ∧ chartData (app c) = chartData s
  ∧ error (app c) = ""
  ∧ loading (app c) = true
  ∧ price_paper (render (app c))
    = guarded p {| heading := toLocaleString p;
                   chart_box := match chartData s with
                                | Some old => Shown old
                                | None => Skipped VNull
                                end |}
  ∧ App (app c)
    = if truthy p && negb (toLocaleString_callable p) then None
      else Some (render (app c)).
Proof.
  intros Hrun%handleSubmit_reachable Hphase.
  destruct Hrun; try discriminate Hphase.
  injection Hphase as -> ->.
  do 5 (split; [reflexivity|]).
  destruct (truthy p) eqn:Htruthy.
  - rewrite App_truthy by done.
    change (predictedPrice (app (suspend (AwaitAll p slots) (sweep_started s p)))) with p.
    by destruct (toLocaleString_callable p).
  - by rewrite App_falsy.
Qed.

Lemma price_shown_over_previous_chart_witness :
  predictedPrice (app (resume_primary (priced 5) (handleSubmit charted))) = VNum 5
  ∧ chartData (app (resume_primary (priced 5) (handleSubmit charted))) = chartData charted
  ∧ error (app (resume_primary (priced 5) (handleSubmit charted))) = ""
  ∧ loading (app (resume_primary (priced 5) (handleSubmit charted))) = true
  ∧ price_paper (render (app (resume_primary (priced 5) (handleSubmit charted))))
    = guarded (VNum 5)
        {| heading := toLocaleString (VNum 5);
           chart_box := match chartData charted with
                        | Some old => Shown old
                        | None => Skipped VNull
                        end |}
  ∧ App (app (resume_primary (priced 5) (handleSubmit charted)))
    = if truthy (VNum 5) && negb (toLocaleString_callable (VNum 5)) then None
      else Some (render (app (resume_primary (priced 5) (handleSubmit charted)))).
Proof.
  apply (price_shown_over_previous_chart charted [Settle 0 (priced 5)]
           (resume_primary (priced 5) (handleSubmit charted))
           (VNum 5) [None; None; None; None; None]).
  - reflexivity.
  - reflexivity.
Defined.

(** X5.  When the sweep fails after a primary response with a truthy
    price, the tree holds the error message together with the new price
    and, under it, the chart of the previous submission if there was one;
    the component renders it when [toLocaleString] can be called on the
    price, and throws otherwise. *)
Theorem sweep_failure_shows_stale_chart
    (s : AppState) (primary : Reply) (p : JsVal) (replies : nat → Reply)
    (order : list nat) :
  predicted_price primary = Some p →
  truthy p = true →
  order ≡ₚ seq 1 5 →
  (∃ i, i ∈ seq 1 5 ∧ predicted_price (replies i) = None) →
  ∃ c, submission s primary replies order = Some c
       ∧ shown (error_text (render (app c)))
         = Some "Error predicting price. Please try again."
       ∧ shown (price_paper (render (app c)))
         = Some {| heading := toLocaleString p;
                   chart_box := match chartData s with
                                | Some old => Shown old
                                | None => Skipped VNull
                                end |}
       ∧ App (app c)
         = if toLocaleString_callable p then Some (render (app c)) else None.
Proof.
  intros Hp Htruthy Horder Hfail.
  exists (catch_finally (sweep_started s p)).
  split; [by apply submission_sweep_failed|].
  split; [reflexivity|].
  split.
  - rewrite price_paper_guard.
    change (predictedPrice (app (catch_finally (sweep_started s p)))) with p.
    by rewrite Htruthy.
  - by rewrite App_truthy.
Qed.

Lemma sweep_failure_shows_stale_chart_witness :
  ∃ c, submission charted (priced 5) (fun _ => Rejected) [1; 2; 3; 4; 5]%nat = Some c
       ∧ shown (error_text (render (app c)))
         = Some "Error predicting price. Please try again."
       ∧ shown (price_paper (render (app c)))
         = Some {| heading := toLocaleString (VNum 5);
                   chart_box := match chartData charted with
                                | Some old => Shown old
                                | None => Skipped VNull
                                end |}
       ∧ App (app c)
         = if toLocaleString_callable (VNum 5) then Some (render (app c)) else None.
Proof.
  apply (sweep_failure_shows_stale_chart charted (priced 5) (VNum 5) (fun _ => Rejected)).
  - reflexivity.
  - reflexivity.
  - reflexivity.
  - exists 1%nat. split; [set_solver | reflexivity].
Defined.

(** X6.  A fully successful submission overwrites the whole outcome of
    the previous one: the final state is determined by the two fields and
    the answers alone, whatever error, price, chart or loading flag the
    component held before and whatever the order of completion. *)
Theorem success_forgets_previous_outcome
    (s s' : AppState) (primary : Reply) (p : JsVal) (replies : nat → Reply)
    (order order' : list nat) :
  squareFootage s = squareFootage s' →
  bedrooms s = bedrooms s' →
  predicted_price primary = Some p →
  (∀ i, i ∈ seq 1 5 → is_Some (predicted_price (replies i))) →
  order ≡ₚ seq 1 5 →
  order' ≡ₚ seq 1 5 →
  ∃ c c', submission s primary replies order = Some c
          ∧ submission s' primary replies order' = Some c'
          ∧ app c = app c'
          ∧ log c = log c'.
Proof.
  intros Hsf Hbd Hp Hall Horder Horder'.
  set (values := fun i => default VUndefined (predicted_price (replies i))).
  assert (∀ i, i ∈ seq 1 5 → predicted_price (replies i) = Some (values i)) as Hvalues.
  { intros i Hi. unfold values. by destruct (Hall i Hi) as [v ->]. }
  exists (succeeded s p (values <$> seq 1 5)), (succeeded s' p (values <$> seq 1 5)).
  split; [by apply submission_succeeded|].
  split; [by apply submission_succeeded|].
  split.
  - change (app (succeeded s p (values <$> seq 1 5)))
      with {| squareFootage := squareFootage s; bedrooms := bedrooms s;
              predictedPrice := p; error := "";
              chartData := Some (newChartData (squareFootage s) p (values <$> seq 1 5));
              loading := false |}.
    by rewrite Hsf, Hbd.
  - cbn. by rewrite Hsf, Hbd.
Qed.

Lemma success_forgets_previous_outcome_witness :
  ∃ c c',
    submission scenario (priced 270000) (fun _ => priced 1) [1; 2; 3; 4; 5]%nat = Some c
    ∧ submission charted
        (priced 270000) (fun _ => priced 1) [3; 1; 2; 4; 5]%nat = Some c'
    ∧ app c = app c'
    ∧ log c = log c'.
Proof.
  apply (success_forgets_previous_outcome scenario charted
           (priced 270000) (VNum 270000) (fun _ => priced 1)).
  - reflexivity.
  - reflexivity.
  - reflexivity.
  - intros i _. by eexists.
  - reflexivity.
  - apply (Permutation_cons_app [1; 2]%nat [4; 5]%nat 3%nat). reflexivity.
Defined.

(** X7.  A response whose body is an object without [predicted_price] is
    not treated as a failure: when all six bodies lack the key, the
    handler ends with an empty error, stores [undefined] as the price and
    five times [undefined] as the curve, and the view shows neither an
    error nor a price. *)
Theorem missing_price_is_not_a_failure
    (s : AppState) (body : gmap string JsVal) (bodies : nat → gmap string JsVal)
    (order : list nat) :
  body !! "predicted_price" = None →
  (∀ i, i ∈ seq 1 5 → bodies i !! "predicted_price" = None) →
  order ≡ₚ seq 1 5 →
  ∃ c chart,
    submission s (Resolved (VObj body)) (fun i => Resolved (VObj (bodies i))) order
    = Some c
    ∧ phase c = Finished
    ∧ error (app c) = ""
    ∧ predictedPrice (app c) = VUndefined
    ∧ chartData (app c) = Some chart
    ∧ line_data (fst (datasets chart))
      = [VUndefined; VUndefined; VUndefined; VUndefined; VUndefined]
    ∧ shown (error_text (render (app c))) = None
    ∧ shown (price_paper (render (app c))) = None.
Proof.
  intros Hbody Hbodies Horder.
  exists (succeeded s VUndefined ((fun _ => VUndefined) <$> seq 1 5)).
  eexists. split.
  { apply submission_succeeded; [|done|].
    - cbn. by rewrite Hbody.
    - intros i Hi. cbn. by rewrite (Hbodies i Hi). }
  by repeat split.
Qed.

Lemma missing_price_is_not_a_failure_witness :
  ∃ c chart,
    submission scenario (Resolved (VObj ∅)) (fun i => Resolved (VObj ∅)) [1; 2; 3; 4; 5]%nat
    = Some c
    ∧ phase c = Finished
    ∧ error (app c) = ""
    ∧ predictedPrice (app c) = VUndefined
    ∧ chartData (app c) = Some chart
    ∧ line_data (fst (datasets chart))
      = [VUndefined; VUndefined; VUndefined; VUndefined; VUndefined]
    ∧ shown (error_text (render (app c))) = None
    ∧ shown (price_paper (render (app c))) = None.
Proof.
  apply (missing_price_is_not_a_failure scenario ∅ (fun _ => ∅)).
  - reflexivity.
  - intros i _. reflexivity.
  - reflexivity.
Defined.

(** ** The join, settlement by settlement *)

Lemma run_app (c : Config) (evs1 evs2 : list Event) :
  run c (evs1 ++ evs2) = run c evs1 ≫= fun c' => run c' evs2.
Proof.
  revert c. induction evs1 as [|ev evs1 IH]; intros c; [done|].
  cbn. destruct (step c ev); [apply IH | done].
Qed.

Lemma request_numbers (ks : list nat) :
  NoDup ks → (∀ i, i ∈ ks → i ∈ seq 1 5) →
  ks = S <$> (pred <$> ks)
  ∧ NoDup (pred <$> ks)
  ∧ ∀ k, k ∈ pred <$> ks → (k < 5)%nat.
Proof.
  intros Hnd Hin. split; [|split].
  - rewrite <- list_fmap_compose. rewrite <- (list_fmap_id ks) at 1.
    apply list_fmap_ext. intros j i Hi.
    apply list_elem_of_lookup_2, Hin, elem_of_seq in Hi. cbn. lia.
  - apply NoDup_fmap_2_strong; [|done].
    intros i j Hi%Hin%elem_of_seq Hj%Hin%elem_of_seq. lia.
  - intros k (i & -> & Hi%Hin%elem_of_seq)%list_elem_of_fmap. lia.
Qed.

Section PartialSweep.
Variable replies : nat → Reply.
Variable response_price : JsVal.
Variable values : nat → JsVal.
Variable n : nat.

(** While a promise of the array is outstanding the join stays pending. *)
Lemma sweep_partial (ks rest : list nat) :
  ∀ c : Config,
    NoDup (ks ++ rest) → rest ≠ [] → (∀ k, k ∈ ks ++ rest → (k < n)%nat) →
    (∀ k, k ∈ ks → predicted_price (replies (S k)) = Some (values k)) →
    run (suspend (AwaitAll response_price (slots_with values (ks ++ rest) n)) c)
      (settlements replies (S <$> ks))
    = Some (suspend (AwaitAll response_price (slots_with values rest n)) c).
Proof.
  induction ks as [|k ks IH]; intros c Hnd Hrest Hlt Hful; [done|].
  rewrite <- app_comm_cons in Hnd, Hlt |- *.
  apply NoDup_cons in Hnd as [Hk Hnd].
  assert (k < n)%nat as Hkn by apply Hlt, list_elem_of_here.
  rewrite fmap_cons. unfold settlements. rewrite fmap_cons. cbn [run].
  rewrite (step_AwaitAll _ response_price (slots_with values (k :: ks ++ rest) n)) by done.
  unfold resume_all.
  rewrite (slots_with_lookup values n), bool_decide_eq_true_2
    by (done || apply list_elem_of_here).
  rewrite (Hful k), (slots_with_fill values n) by (done || apply list_elem_of_here).
  destruct rest as [|r rest]; [done|].
  assert (r ∈ ks ++ r :: rest) as Hr by (apply elem_of_app; right; apply list_elem_of_here).
  rewrite (mapM_id_pending _ r), suspend_suspend.
  - apply IH; [done | done | |].
    + intros i Hi. apply Hlt. by apply list_elem_of_further.
    + intros i Hi. apply Hful. by apply list_elem_of_further.
  - rewrite (slots_with_lookup values n), bool_decide_eq_true_2; [done | done |].
    apply Hlt. by apply list_elem_of_further.
Qed.

End PartialSweep.

(** X8.  The sweep fails fast: as soon as one of its requests has failed,
    whichever requests settled before it and however they were answered,
    the handler has run to its end with the error message set and the
    loading flag cleared, while other requests may still be outstanding;
    whatever settles afterwards, even successfully, changes nothing. *)
Theorem sweep_fails_fast
    (s : AppState) (primary : Reply) (p : JsVal) (replies : nat → Reply)
    (settled : list nat) (later : list Event) :
  predicted_price primary = Some p →
  NoDup settled →
  (∀ i, i ∈ settled → i ∈ seq 1 5) →
  (∃ i, i ∈ settled ∧ predicted_price (replies i) = None) →
  ∃ c, run (handleSubmit s) (Settle 0 primary :: settlements replies settled) = Some c
       ∧ run (handleSubmit s) (Settle 0 primary :: settlements replies settled ++ later)
         = Some c
       ∧ phase c = Finished
       ∧ error (app c) = "Error predicting price. Please try again."
       ∧ loading (app c) = false
       ∧ chartData (app c) = chartData s.
Proof.
  intros Hp Hnd Hin (i & Hi & Hfail).
  destruct (request_numbers settled Hnd Hin) as (Heq & Hnd' & Hlt).
  assert (run (handleSubmit s) (Settle 0 primary :: settlements replies settled)
          = Some (catch_finally (sweep_started s p))) as Hrun.
  { rewrite (run_cons _ _ _ _ (primary_fulfilled s _ p Hp)), Heq.
    apply sweep_rejected; [done | |].
    - intros k Hk%Hlt. by do 5 (destruct k as [|k]; [done|]); lia.
    - exists (pred i). split; [by apply list_elem_of_fmap_2|].
      apply Hin, elem_of_seq in Hi.
      by replace (S (pred i)) with i by lia. }
  exists (catch_finally (sweep_started s p)).
  split; [done|]. split; [|by repeat split].
  rewrite app_comm_cons, run_app, Hrun. by apply run_Finished.
Qed.

Lemma sweep_fails_fast_witness :
  ∃ c, run (handleSubmit scenario)
         (Settle 0 (priced 270000)
          :: settlements (fun i => if (i =? 4)%nat then Rejected else priced 1) [2; 4]%nat)
       = Some c
       ∧ run (handleSubmit scenario)
           (Settle 0 (priced 270000)
            :: settlements (fun i => if (i =? 4)%nat then Rejected else priced 1) [2; 4]%nat
            ++ [Settle 1 (priced 1); Settle 3 (priced 1); Settle 5 (priced 1)])
         = Some c
       ∧ phase c = Finished
       ∧ error (app c) = "Error predicting price. Please try again."
       ∧ loading (app c) = false
       ∧ chartData (app c) = chartData scenario.
Proof.
  apply (sweep_fails_fast scenario (priced 270000) (VNum 270000)).
  - reflexivity.
  - by apply (bool_decide_unpack (NoDup [2; 4]%nat)).
  - apply Forall_forall. by apply (bool_decide_unpack (Forall _ [2; 4]%nat)).
  - exists 4%nat. split; [|reflexivity].
    by apply (bool_decide_unpack (4%nat ∈ [2; 4]%nat)).
Defined.

(** X9.  No chart is built before the last request of the sweep has
    settled: while at least one of the five is outstanding and the others
    have succeeded, the handler is still suspended on the join, loading is
    set and [chartData] is what it was before the submission. *)
Theorem no_chart_before_last_settlement
    (s : AppState) (primary : Reply) (p : JsVal) (replies : nat → Reply)
    (settled outstanding : list nat) :
  predicted_price primary = Some p →
  settled ++ outstanding ≡ₚ seq 1 5 →
  outstanding ≠ [] →
  (∀ i, i ∈ settled → is_Some (predicted_price (replies i))) →
  ∃ c slots,
    run (handleSubmit s) (Settle 0 primary :: settlements replies settled) = Some c
    ∧ phase c = AwaitAll p slots
    ∧ loading (app c) = true
    ∧ chartData (app c) = chartData s
    ∧ Forall (fun e => ∀ chart, e ≠ SetChartData chart) (log c).
Proof.
  intros Hp Hperm Hout Hall.
  destruct (sweep_order _ Hperm) as (l & Hl & Hperm').
  symmetry in Hl. apply fmap_app_inv in Hl as (ks & rest & -> & -> & ->).
  set (values := fun k => default VUndefined (predicted_price (replies (S k)))).
  exists (suspend (AwaitAll p (slots_with values rest 5)) (sweep_started s p)).
  eexists. split.
  { rewrite (run_cons _ _ _ _ (primary_fulfilled s _ p Hp)).
    rewrite <- (slots_with_sweep values (ks ++ rest) Hperm').
    apply (sweep_partial replies p values 5).
    - rewrite Hperm'. apply NoDup_seq.
    - by destruct rest.
    - intros k Hk. rewrite Hperm' in Hk. apply elem_of_seq in Hk. lia.
    - intros k Hk. unfold values.
      by destruct (Hall (S k) (list_elem_of_fmap_2 S _ _ Hk)) as [v ->]. }
  split; [reflexivity|]. split; [reflexivity|]. split; [reflexivity|].
  cbn. repeat constructor; done.
Qed.

Lemma no_chart_before_last_settlement_witness :
  ∃ c slots,
    run (handleSubmit scenario)
      (Settle 0 (priced 270000) :: settlements (fun _ => priced 1) [3; 1]%nat) = Some c
    ∧ phase c = AwaitAll (VNum 270000) slots
    ∧ loading (app c) = true
    ∧ chartData (app c) = chartData scenario
    ∧ Forall (fun e => ∀ chart, e ≠ SetChartData chart) (log c).
Proof.
  apply (no_chart_before_last_settlement scenario (priced 270000) (VNum 270000)
           (fun _ => priced 1) [3; 1]%nat [2; 4; 5]%nat).
  - reflexivity.
  - apply (Permutation_cons_app [1; 2]%nat [4; 5]%nat 3%nat). reflexivity.
  - discriminate.
  - intros i _. by eexists.
Defined.

(** ** Diagnostics *)

(** X10.  On every completed submission the last effect of the handler is
    [setLoading(false)], and [console.error] has been called exactly when
    the submission ended with the error message: a success logs nothing,
    a failure is never silent. *)
Theorem console_error_iff_failure (s : AppState) (evs : list Event) (c : Config) :
  run (handleSubmit s) evs = Some c →
  phase c = Finished →
  last (log c) = Some (SetLoading false)
  ∧ (ConsoleError ∈ log c ↔ error (app c) = "Error predicting price. Please try again.")
  ∧ (ConsoleError ∉ log c ↔ error (app c) = "").
Proof.
  intros Hrun%handleSubmit_reachable Hphase.
  assert (∀ l, Forall (fun e => e ≠ ConsoleError) l → ConsoleError ∉ l) as Habsent.
  { intros l Hl Hin. rewrite Forall_forall in Hl. by apply (Hl _ Hin). }
  destruct Hrun; try discriminate Hphase.
  - split; [reflexivity|].
    assert (ConsoleError ∈ log (catch_finally (handleSubmit s))) as Hin.
    { cbn. do 6 apply list_elem_of_further. apply list_elem_of_here. }
    by split; split.
  - split; [reflexivity|].
    assert (ConsoleError ∈ log (catch_finally (sweep_started s p))) as Hin.
    { cbn. do 12 apply list_elem_of_further. apply list_elem_of_here. }
    by split; split.
  - split; [reflexivity|].
    assert (ConsoleError ∉ log (succeeded s p predictions)) as Hnot.
    { apply Habsent. cbn. repeat constructor; discriminate. }
    by split; split.
Qed.

Lemma console_error_iff_failure_witness :
  last (log (catch_finally (sweep_started scenario (VNum 270000)))) = Some (SetLoading false)
  ∧ (ConsoleError ∈ log (catch_finally (sweep_started scenario (VNum 270000)))
     ↔ error (app (catch_finally (sweep_started scenario (VNum 270000))))
       = "Error predicting price. Please try again.")
  ∧ (ConsoleError ∉ log (catch_finally (sweep_started scenario (VNum 270000)))
     ↔ error (app (catch_finally (sweep_started scenario (VNum 270000)))) = "").
Proof.
  apply (console_error_iff_failure scenario
           [Settle 0 (priced 270000); Settle 2 Rejected]);
    reflexivity.
Defined.

(** ** Typing while a submission is in flight *)

Section Edits.
Variable f : AppState → AppState.
Hypothesis f_commutes : ∀ e s, apply_effect e (f s) = f (apply_effect e s).

Lemma emit_edit (e : Effect) (c : Config) : emit e (edit f c) = edit f (emit e c).
Proof. unfold emit, edit. cbn. by rewrite f_commutes. Qed.

Lemma perform_edit (es : list Effect) (c : Config) :
  perform es (edit f c) = edit f (perform es c).
Proof.
  revert c. induction es as [|e es IH]; intros c; [done|].
  by rewrite !perform_cons, emit_edit, IH.
Qed.

Lemma catch_finally_edit (c : Config) : catch_finally (edit f c) = edit f (catch_finally c).
Proof. unfold catch_finally. by rewrite perform_edit. Qed.

Lemma step_edit (c : Config) (e : Event) : step (edit f c) e = edit f <$> step c e.
Proof.
  unfold step. cbn [phase edit].
  destruct (phase c) as [|p slots|], e as [[|k] r]; try done.
  - unfold resume_primary. destruct (predicted_price r).
    + cbn [closure_bedrooms edit]. by rewrite perform_edit.
    + by rewrite catch_finally_edit.
  - unfold resume_all. destruct (slots !! k) as [[|]|]; try done.
    destruct (predicted_price r); [|by rewrite catch_finally_edit].
    destruct (mapM id _); [|done].
    cbn [closure_squareFootage edit]. by rewrite perform_edit.
Qed.

Lemma run_edit (evs : list Event) :
  ∀ c, run (edit f c) evs = edit f <$> run c evs.
Proof.
  induction evs as [|e evs IH]; intros c; [done|].
  cbn [run]. rewrite step_edit. destruct (step c e) as [c'|]; [apply IH | done].
Qed.

End Edits.

Lemma setSquareFootage_commutes (value : string) (e : Effect) (s : AppState) :
  apply_effect e (setSquareFootage value s) = setSquareFootage value (apply_effect e s).
Proof. by destruct e. Qed.

Lemma setBedrooms_commutes (value : string) (e : Effect) (s : AppState) :
  apply_effect e (setBedrooms value s) = setBedrooms value (apply_effect e s).
Proof. by destruct e. Qed.

Lemma edit_edit (f g : AppState → AppState) (x : option Config) :
  edit f <$> (edit g <$> x) = edit (f ∘ g) <$> x.
Proof. by destruct x. Qed.

(** X11.  Typing in the two fields while a submission is in flight has no
    effect on it, whenever the keystrokes fall between the settlements:
    the handler goes on with the square footage and the bedroom count it
    was called with, issues the same requests and stores the same price,
    error and chart; the only difference in the final state is that the
    fields hold what was typed. *)
Theorem typing_does_not_reach_the_call (c : Config) (us : list UiEvent) :
  ui_run c us = edit (typing us) <$> run c (network_events us).
Proof.
  revert c. induction us as [|u us IH]; intros c.
  - by destruct c.
  - destruct u as [value|value|e]; cbn [ui_run ui_step].
    + rewrite IH, (run_edit _ (setSquareFootage_commutes value)). apply edit_edit.
    + rewrite IH, (run_edit _ (setBedrooms_commutes value)). apply edit_edit.
    + change (network_events (Network e :: us)) with (e :: network_events us).
      cbn [run]. destruct (step c e) as [c'|]; [apply IH | done].
Qed.

(** With the fields retyped during the sweep, the point and the requests
    are still those of the submitted "1200" and "3". *)
Example typing_during_the_sweep :
  (fun c => (squareFootage (app c), bedrooms (app c),
             point_data ∘ snd ∘ datasets <$> chartData (app c),
             last (requests (log c))))
    <$> ui_run (handleSubmit scenario)
          [Network (Settle 0 (priced 270000)); ChangeSquareFootage "5000";
           Network (Settle 1 (priced 1)); Network (Settle 2 (priced 2));
           ChangeBedrooms "9"; Network (Settle 3 (priced 3));
           Network (Settle 4 (priced 4)); Network (Settle 5 (priced 5))]
  = Some ("5000", "9",
          Some [ {| x := VNum 1200; y := VNum 270000 |} ],
          Some (predict_url "3000" "3")).
Proof. reflexivity. Qed.

(** ** The error boundary *)

Lemma boundary_after_error (errors : list JsVal) :
  errors ≠ [] → boundary_after errors = {| hasError := true |}.
Proof.
  unfold boundary_after. generalize boundary_initial.
  induction errors as [|error errors IH]; intros st Hne; [done|].
  destruct errors as [|error' errors]; [done|]. by apply IH.
Qed.

(** X12.  The boundary renders its children untouched as long as nothing
    was thrown below it; after the first error it renders the heading
    "Something went wrong." whatever is thrown later and whatever children
    it is given: nothing in the class sets [hasError] back. *)
Theorem boundary_never_recovers
    {C : Type} (errors : list JsVal) (children : C) :
  boundary_render (boundary_after errors) children
  = match errors with
    | [] => Children children
    | _ :: _ => SomethingWentWrong
    end.
Proof.
  destruct errors as [|error errors]; [done|].
  by rewrite boundary_after_error.
Qed.

(** ** One call at a time *)

Lemma step_loading (c c' : Config) (e : Event) :
  phase c ≠ Finished →
  loading (app c) = true →
  step c e = Some c' →
  loading (app c') = match phase c' with
                     | Finished => false
                     | AwaitPrimary | AwaitAll _ _ => true
                     end.
Proof.
  intros Hphase Hloading Hstep. destruct c as [ph sf bd st l].
  cbn in Hphase, Hloading. destruct e as [i r].
  destruct ph as [|price slots|]; [| |done].
  - destruct i as [|i]; [|done].
    cbn in Hstep. injection Hstep as <-.
    unfold resume_primary. destruct (predicted_price r); [exact Hloading | reflexivity].
  - destruct i as [|k]; [done|].
    cbn in Hstep. unfold resume_all in Hstep.
    destruct (slots !! k) as [[|]|]; try done.
    destruct (predicted_price r) as [v|]; [|by injection Hstep as <-].
    destruct (mapM id (<[k:=Some v]> slots)); injection Hstep as <-;
      [reflexivity | exact Hloading].
Qed.

Lemma single_flight_idle (p : Page) (j : nat) (call : Call) :
  single_flight p →
  loading (page_state p) = false →
  page_calls p !! j = Some call →
  call_pending call = false.
Proof.
  intros [Hlast Hloading] Hidle Hcall.
  destruct (call_pending call) eqn:Hpending; [|done].
  pose proof (Hlast j call Hcall Hpending) as Hj.
  rewrite last_lookup, <- Hj in Hloading.
  change (Nat.pred (S j)) with j in Hloading.
  rewrite Hcall in Hloading. cbn in Hloading. congruence.
Qed.

Lemma page_step_single_flight (p p' : Page) (ev : PageEvent) :
  single_flight p → page_step p ev = Some p' → single_flight p'.
Proof.
  intros Hp Hstep. destruct ev as [|value|value|j e].
  - cbn [page_step] in Hstep.
    change (button_disabled (render (page_state p))) with (loading (page_state p)) in Hstep.
    destruct (loading (page_state p)) eqn:Hidle; injection Hstep as <-; [done|].
    split.
    + cbn [page_calls]. intros j call Hcall Hpending.
      rewrite length_app. cbn [length].
      apply lookup_app_Some in Hcall as [Hcall|[Hj Hcall]].
      * by rewrite (single_flight_idle p j call) in Hpending.
      * apply list_lookup_singleton_Some in Hcall as [Hj' _]. lia.
    + cbn [page_calls page_state]. by rewrite last_snoc.
  - injection Hstep as <-. exact Hp.
  - injection Hstep as <-. exact Hp.
  - cbn [page_step] in Hstep.
    destruct (page_calls p !! j) as [call|] eqn:Hcall; [|done].
    destruct (step (resume_call call p) e) as [c'|] eqn:Hrun; [|done].
    injection Hstep as <-.
    destruct (call_pending call) eqn:Hpending.
    + destruct Hp as [Hlast Hloading].
      pose proof (Hlast j call Hcall Hpending) as Hj.
      rewrite last_lookup, <- Hj in Hloading.
      change (Nat.pred (S j)) with j in Hloading.
      rewrite Hcall in Hloading. cbn in Hloading. rewrite Hpending in Hloading.
      assert (loading (app c') = call_pending (call_of c')) as Hloading'.
      { apply (step_loading (resume_call call p) c' e); [|done..].
        cbn. unfold call_pending in Hpending.
        by destruct (call_phase call). }
      split.
      * cbn [page_calls page_of]. rewrite length_insert.
        intros k call' Hk Hpending'.
        destruct (decide (k = j)) as [->|Hne]; [done|].
        rewrite list_lookup_insert_ne in Hk by done.
        by apply (Hlast k call').
      * cbn [page_calls page_state page_of].
        rewrite last_lookup, length_insert, <- Hj.
        change (Nat.pred (S j)) with j.
        rewrite list_lookup_insert_eq by (by eapply lookup_lt_Some).
        exact Hloading'.
    + assert (c' = resume_call call p) as ->.
      { unfold call_pending in Hpending.
        rewrite step_Finished in Hrun; [by injection Hrun|].
        cbn. by destruct (call_phase call). }
      replace (call_of (resume_call call p)) with call by (by destruct call).
      rewrite list_insert_id by done.
      by destruct p.
Qed.

Lemma page_run_single_flight (evs : list PageEvent) :
  ∀ p p', single_flight p → page_run p evs = Some p' → single_flight p'.
Proof.
  induction evs as [|ev evs IH]; intros p p' Hp Hrun; cbn in Hrun.
  - by injection Hrun as <-.
  - destruct (page_step p ev) as [p1|] eqn:Hstep; [|done].
    eapply IH; [|done]. by eapply page_step_single_flight.
Qed.

(** X13.  The form cannot start a second call of [handleSubmit] while one
    is in flight: the submit button is disabled as long as the loading
    flag is set, and the flag is set from the submit until the call has
    run to its end.  Whatever the user does and however the requests
    settle, a call that is still suspended is the last one made, the
    loading flag is set exactly while it is suspended, and a submit
    attempted meanwhile changes nothing. *)
Theorem one_call_in_flight (s : AppState) (evs : list PageEvent) (p : Page) :
  loading s = false →
  page_run (page_at s) evs = Some p →
  single_flight p
  ∧ (loading (page_state p) = true → page_step p Submit = Some p)
  ∧ (loading (page_state p) = false →
     ∀ call, call ∈ page_calls p → call_phase call = Finished).
Proof.
  intros Hidle Hrun.
  assert (single_flight p) as Hp.
  { apply (page_run_single_flight evs (page_at s)); [|done]. by split. }
  split; [done|]. split.
  - intros Hloading. cbn [page_step].
    change (button_disabled (render (page_state p))) with (loading (page_state p)).
    by rewrite Hloading.
  - intros Hloading call (j & Hcall)%list_elem_of_lookup.
    pose proof (single_flight_idle p j call Hp Hloading Hcall) as Hpending.
    unfold call_pending in Hpending. by destruct (call_phase call).
Qed.

Lemma one_call_in_flight_witness :
  let c := suspend (AwaitAll (VNum 270000) [None; None; None; None; None])
             (sweep_started scenario (VNum 270000)) in
  single_flight (page_of [call_of c] c)
  ∧ (loading (page_state (page_of [call_of c] c)) = true →
     page_step (page_of [call_of c] c) Submit = Some (page_of [call_of c] c))
  ∧ (loading (page_state (page_of [call_of c] c)) = false →
     ∀ call, call ∈ page_calls (page_of [call_of c] c) → call_phase call = Finished).
Proof.
  apply (one_call_in_flight scenario
           [Submit; Submit; Settled 0 (Settle 0 (priced 270000)); Submit]).
  - reflexivity.
  - reflexivity.
Defined.

(** A second submit between two edits of a field is lost while the first
    call is in flight, and taken once it has run to its end. *)
Example submit_while_loading_is_lost :
  length ∘ page_calls
    <$> page_run (page_at scenario) [Submit; TypeSquareFootage "2000"; Submit]
  = Some 1%nat
  ∧ length ∘ page_calls
      <$> page_run (page_at scenario)
            [Submit; Settled 0 (Settle 0 Rejected); TypeSquareFootage "2000"; Submit]
    = Some 2%nat.
Proof. split; reflexivity. Qed.

(** ** A price that cannot be printed *)

(** Once the primary response has been taken, the call is awaiting the
    sweep, or has ended in the [catch] block, or has ended with the chart;
    the stored price is that of the response in all three. *)
Lemma step_after_primary (s : AppState) (p : JsVal) (c c' : Config) (e : Event) :
  ((∃ slots, c = suspend (AwaitAll p slots) (sweep_started s p))
   ∨ c = catch_finally (sweep_started s p)
   ∨ (∃ predictions, c = succeeded s p predictions)) →
  step c e = Some c' →
  (∃ slots, c' = suspend (AwaitAll p slots) (sweep_started s p))
  ∨ c' = catch_finally (sweep_started s p)
  ∨ (∃ predictions, c' = succeeded s p predictions).
Proof.
  intros [[slots ->]|[->|[predictions ->]]] Hstep.
  - destruct e as [[|k] r]; [done|].
    rewrite (step_AwaitAll _ p slots) in Hstep by done.
    unfold resume_all in Hstep.
    destruct (slots !! k) as [[|]|]; try done.
    destruct (predicted_price r) as [v|].
    + destruct (mapM id (<[k:=Some v]> slots)) as [predictions|].
      * rewrite succeeded_suspend in Hstep. injection Hstep as <-.
        right. right. by eexists.
      * rewrite suspend_suspend in Hstep. injection Hstep as <-.
        left. by eexists.
    + injection Hstep as <-. rewrite catch_finally_suspend. by right; left.
  - rewrite step_Finished in Hstep by done. injection Hstep as <-. by right; left.
  - rewrite step_Finished in Hstep by done. injection Hstep as <-.
    right. right. by eexists.
Qed.

Lemma run_after_primary (s : AppState) (p : JsVal) (evs : list Event) :
  ∀ c c',
    ((∃ slots, c = suspend (AwaitAll p slots) (sweep_started s p))
     ∨ c = catch_finally (sweep_started s p)
     ∨ (∃ predictions, c = succeeded s p predictions)) →
    run c evs = Some c' →
    predictedPrice (app c') = p.
Proof.
  induction evs as [|e evs IH]; intros c c' Hc Hrun; cbn in Hrun.
  - injection Hrun as <-.
    by destruct Hc as [[slots ->]|[->|[predictions ->]]].
  - destruct (step c e) as [c1|] eqn:Hstep; [|done].
    eapply IH; [|done]. by eapply step_after_primary.
Qed.

(** X14.  The handler stores whatever the primary response carries under
    [predicted_price].  When that value is truthy and [toLocaleString]
    cannot be called on it, as for an object with a key of that name, then
    from the primary response on, however the sweep settles, the stored
    price is that value and the component function throws on line 169 and
    returns no tree: rendering is outside the handler's [try], and neither
    the [catch] block nor the success path writes the price again. *)
Theorem unprintable_price_breaks_render
    (s : AppState) (primary : Reply) (p : JsVal) (evs : list Event) (c : Config) :
  predicted_price primary = Some p →
  truthy p = true →
  toLocaleString_callable p = false →
  run (handleSubmit s) (Settle 0 primary :: evs) = Some c →
  predictedPrice (app c) = p
  ∧ heading <$> shown (price_paper (render (app c))) = Some ThrowsTypeError
  ∧ App (app c) = None.
Proof.
  intros Hp Htruthy Hcall Hrun.
  cbn [run] in Hrun. rewrite (primary_fulfilled s primary p Hp) in Hrun.
  assert (predictedPrice (app c) = p) as Hprice.
  { apply (run_after_primary s p evs
             (suspend (AwaitAll p [None; None; None; None; None]) (sweep_started s p)) c);
      [|done].
    left. by eexists. }
  split; [done|]. split.
  - rewrite price_paper_guard, Hprice, Htruthy. cbn.
    unfold toLocaleString. by rewrite Hcall.
  - rewrite App_truthy by (by rewrite Hprice).
    by rewrite Hprice, Hcall.
Qed.

Lemma unprintable_price_breaks_render_witness :
  let p := VObj {[ "toLocaleString" := VNum 1 ]} in
  let c := catch_finally (sweep_started scenario p) in
  predictedPrice (app c) = p
  ∧ heading <$> shown (price_paper (render (app c))) = Some ThrowsTypeError
  ∧ App (app c) = None.
Proof.
  apply (unprintable_price_breaks_render scenario
           (Resolved (VObj {[ "predicted_price" := VObj {[ "toLocaleString" := VNum 1 ]} ]}))
           (VObj {[ "toLocaleString" := VNum 1 ]})
           [Settle 2 Rejected]).
  - reflexivity.
  - reflexivity.
  - reflexivity.
  - reflexivity.
Defined.

(** ** Exponent notation *)

(** X15.  For a square footage typed in exponent notation, digits, the
    letter e and an exponent, the request carries the raw text while the
    highlighted point of a successful submission is placed at the Number
    nearest to the digits before the e, whatever the exponent: at those
    digits themselves when they are at most [2 ^ 53 - 1]. *)
Theorem exponent_notation_plotted_at_mantissa
    (s : AppState) (mantissa exponent : Decimal.uint)
    (primary : Reply) (p : JsVal) (replies : nat → Reply) (order : list nat) :
  squareFootage s
  = (NilEmpty.string_of_uint mantissa ++ "e" ++ NilEmpty.string_of_uint exponent)%string →
  mantissa ≠ Decimal.Nil →
  predicted_price primary = Some p →
  (∀ i, i ∈ seq 1 5 → is_Some (predicted_price (replies i))) →
  order ≡ₚ seq 1 5 →
  ∃ c chart,
    submission s primary replies order = Some c
    ∧ head (requests (log c))
      = Some ("http://localhost:8000/predict/"
              ++ (NilEmpty.string_of_uint mantissa ++ "e"
                  ++ NilEmpty.string_of_uint exponent)
              ++ "/" ++ bedrooms s)%string
    ∧ chartData (app c) = Some chart
    ∧ point_data (snd (datasets chart))
      = [ {| x := Number_of_integer (Z.of_uint mantissa); y := p |} ]
    ∧ (Z.of_uint mantissa ≤ MAX_SAFE_INTEGER →
       point_data (snd (datasets chart))
       = [ {| x := VNum (inject_Z (Z.of_uint mantissa)); y := p |} ]).
Proof.
  intros Hraw Hm Hp Hall Horder.
  exists (succeeded s p
            ((fun i => default VUndefined (predicted_price (replies i))) <$> seq 1 5)).
  eexists. split.
  { apply submission_succeeded; [done..|].
    intros i Hi. by destruct (Hall i Hi) as [v ->]. }
  split; [cbn; by rewrite Hraw|].
  split; [reflexivity|].
  assert (parseInt (squareFootage s) = Number_of_integer (Z.of_uint mantissa)) as Hparse.
  { rewrite Hraw.
    change (NilEmpty.string_of_uint mantissa ++ "e" ++ NilEmpty.string_of_uint exponent)%string
      with ((if false then "-" else "") ++ NilEmpty.string_of_uint mantissa
            ++ String "e" (NilEmpty.string_of_uint exponent))%string.
    by rewrite parseInt_digits. }
  split; [cbn; by rewrite Hparse|].
  intros Hsafe. cbn. rewrite Hparse, Number_of_integer_safe; [done|].
  pose proof (of_uint_bound mantissa). lia.
Qed.

Lemma exponent_notation_plotted_at_mantissa_witness :
  ∃ c chart,
    submission (setSquareFootage "1e3" scenario) (priced 230000) (fun _ => priced 1)
      [1; 2; 3; 4; 5]%nat = Some c
    ∧ head (requests (log c)) = Some "http://localhost:8000/predict/1e3/3"
    ∧ chartData (app c) = Some chart
    ∧ point_data (snd (datasets chart))
      = [ {| x := Number_of_integer 1; y := VNum 230000 |} ]
    ∧ (1 ≤ MAX_SAFE_INTEGER →
       point_data (snd (datasets chart)) = [ {| x := VNum 1; y := VNum 230000 |} ]).
Proof.
  apply (exponent_notation_plotted_at_mantissa (setSquareFootage "1e3" scenario)
           (Decimal.D1 Decimal.Nil) (Decimal.D3 Decimal.Nil)
           (priced 230000) (VNum 230000) (fun _ => priced 1)).
  - reflexivity.
  - discriminate.
  - reflexivity.
  - intros i _. by eexists.
  - reflexivity.
Defined.

(** The state used in the witnesses above is the outcome of a submission. *)
Example charted_is_an_outcome :
  app <$> submission scenario (priced 270000)
            (fun i => priced (inject_Z (Z.of_nat i))) [1; 2; 3; 4; 5]%nat
  = Some charted.
Proof. reflexivity. Qed.
